(** * TimersJS: a shallow embedding of [timers.js]

    The library keeps two module-level arrays ([timerPool], [callbacksPool]),
    a family of timer objects linked by prototypes, and talks to the host
    through [setTimeout], [setInterval], [clearTimeout] and [clearInterval].
    All of it is modelled here as explicit state passing over one [state]
    record: the object store, the two pools, the host's table of armed
    timers and a log of the calls made to caller-supplied functions.
    The claims of the specification come first under Properties; Further
    properties covers the rest of the file. *)

From Stdlib Require Import ZArith Lia.
From stdpp Require Import base option list gmap.

Open Scope Z_scope.

(** ** Values *)

(** A JavaScript slot that may hold [undefined], [null] or a proper value. *)
Inductive jsval (A : Type) : Type :=
  | Undefined
  | Null
  | Defined (a : A).
Arguments Undefined {A}.
Arguments Null {A}.
Arguments Defined {A} a.

(** Object references and host handles are plain numbers. *)
Abbreviation ref := nat (only parsing).
Abbreviation handle := nat (only parsing).

(** The receiver of a method call: [AbstractTimer.prototype] itself (what
    [Timer.base] denotes) or an object made by one of the constructors. *)
Inductive target : Type :=
  | Base
  | Obj (r : ref).

(** Which prototype an object resolves its methods through. *)
Inductive klass : Type :=
  | AbstractTimer | Timer | IntervalTimer | MultiTimer | OneShotTimer | OneShotTrigger.

(** Function values.  [FUser c] is a caller-supplied function, known only by
    its name [c]; the other three are the closures built by the constructors
    of [MultiTimer], [OneShotTimer] and [OneShotTrigger].  [None] stands for
    [undefined] wherever a function is optional. *)
#[warnings="-register-all"]
Inductive fn : Type :=
  | FUser (c : nat)
  | FMulti (cl : nat)
  | FOneShot (callbackFunction : option fn)
  | FTrigger (interval : ref) (intervalCompletionCallback : option fn).

(** The indirection function built by [callback()]: it carries the callback
    it dispatches to and the timer used as receiver. *)
Record wrapper : Type := Wrapper {
  timerCallback : option fn;
  timer : target
}.

(** Mutable fields of a [MultiTimer]'s [internalCallback].  The two counters
    are JavaScript numbers holding integers; see [roundDouble]. *)
Record multiClosure : Type := MultiClosure {
  callbackFunction : option nat;
  completionCallback : option nat;
  repetitions : Z;
  totalRepetitions : Z
}.

Record timerObj : Type := TimerObj {
  _timer : jsval handle;
  _interval : option Z;
  _callback : option fn;
  _running : option bool;
  _paused : option bool;
  _timerFn : jsval wrapper;
  timer_id : option nat;
  proto : klass
}.

(** What the host was asked to run. *)
Inductive hostFn : Type :=
  | HCall (w : jsval wrapper)
  | HSweep.

Record hostEntry : Type := HostEntry {
  h_fn : hostFn;
  h_delay : option Z;
  h_repeat : bool
}.

(** The receiver of a call: a timer object, or a function object (a call
    written [aC.completionCallback()] has [aC] as its receiver). *)
Inductive receiver : Type :=
  | ThisTimer (t : target)
  | ThisFunction (f : fn).

(** One call of a caller-supplied function: which function, its receiver,
    its arguments, and the registry as the function could observe it. *)
Record event : Type := Event {
  ev_fn : nat;
  ev_this : receiver;
  ev_args : list Z;
  ev_pool : list ref
}.

Inductive retired : Type :=
  | RWrapper (w : jsval wrapper)
  | RFn (f : fn).

Record state : Type := State {
  base : timerObj;
  heap : gmap ref timerObj;
  next_ref : ref;
  timerPool : list ref;
  callbacksPool : list retired;
  closures : gmap nat multiClosure;
  next_closure : nat;
  pending : gmap handle hostEntry;
  next_handle : handle;
  log : list event
}.

#[global] Instance jsval_eq_dec {A} `{EqDecision A} : EqDecision (jsval A).
Proof. solve_decision. Defined.
#[global] Instance target_eq_dec : EqDecision target.
Proof. solve_decision. Defined.
#[global] Instance klass_eq_dec : EqDecision klass.
Proof. solve_decision. Defined.

(** ** Field updates *)

Definition set_timer (v : jsval handle) (o : timerObj) : timerObj :=
  TimerObj v (_interval o) (_callback o) (_running o) (_paused o) (_timerFn o) (timer_id o) (proto o).
Definition set_interval (v : option Z) (o : timerObj) : timerObj :=
  TimerObj (_timer o) v (_callback o) (_running o) (_paused o) (_timerFn o) (timer_id o) (proto o).
Definition set_callback (v : option fn) (o : timerObj) : timerObj :=
  TimerObj (_timer o) (_interval o) v (_running o) (_paused o) (_timerFn o) (timer_id o) (proto o).
Definition set_running (v : option bool) (o : timerObj) : timerObj :=
  TimerObj (_timer o) (_interval o) (_callback o) v (_paused o) (_timerFn o) (timer_id o) (proto o).
Definition set_paused (v : option bool) (o : timerObj) : timerObj :=
  TimerObj (_timer o) (_interval o) (_callback o) (_running o) v (_timerFn o) (timer_id o) (proto o).
Definition set_timerFn (v : jsval wrapper) (o : timerObj) : timerObj :=
  TimerObj (_timer o) (_interval o) (_callback o) (_running o) (_paused o) v (timer_id o) (proto o).
Definition set_proto (k : klass) (o : timerObj) : timerObj :=
  TimerObj (_timer o) (_interval o) (_callback o) (_running o) (_paused o) (_timerFn o) (timer_id o) k.

Definition with_base (b : timerObj) (s : state) : state :=
  State b (heap s) (next_ref s) (timerPool s) (callbacksPool s) (closures s)
        (next_closure s) (pending s) (next_handle s) (log s).
Definition with_heap (h : gmap ref timerObj) (s : state) : state :=
  State (base s) h (next_ref s) (timerPool s) (callbacksPool s) (closures s)
        (next_closure s) (pending s) (next_handle s) (log s).
Definition with_timerPool (p : list ref) (s : state) : state :=
  State (base s) (heap s) (next_ref s) p (callbacksPool s) (closures s)
        (next_closure s) (pending s) (next_handle s) (log s).
Definition with_callbacksPool (p : list retired) (s : state) : state :=
  State (base s) (heap s) (next_ref s) (timerPool s) p (closures s)
        (next_closure s) (pending s) (next_handle s) (log s).
Definition with_closures (c : gmap nat multiClosure) (s : state) : state :=
  State (base s) (heap s) (next_ref s) (timerPool s) (callbacksPool s) c
        (next_closure s) (pending s) (next_handle s) (log s).
Definition with_pending (p : gmap handle hostEntry) (s : state) : state :=
  State (base s) (heap s) (next_ref s) (timerPool s) (callbacksPool s) (closures s)
        (next_closure s) p (next_handle s) (log s).
Definition with_log (l : list event) (s : state) : state :=
  State (base s) (heap s) (next_ref s) (timerPool s) (callbacksPool s) (closures s)
        (next_closure s) (pending s) (next_handle s) l.

(** Reading and writing the object a receiver denotes.  A method call on a
    reference that denotes no object is a [TypeError]; throughout, [None]
    is a thrown exception. *)
Definition get (this : target) (s : state) : option timerObj :=
  match this with
  | Base => Some (base s)
  | Obj r => heap s !! r
  end.

Definition upd (this : target) (f : timerObj -> timerObj) (s : state) : option state :=
  match this with
  | Base => Some (with_base (f (base s)) s)
  | Obj r => o ← heap s !! r; Some (with_heap (<[r := f o]> (heap s)) s)
  end.

(** The class whose methods a receiver resolves: [AbstractTimer.prototype]
    holds the base methods itself, every other object follows its chain. *)
Definition classOf (this : target) (s : state) : option klass :=
  match this with
  | Base => Some AbstractTimer
  | Obj r => proto <$> heap s !! r
  end.

(** JavaScript truthiness of a boolean field that may be [undefined]. *)
Definition truthy (b : option bool) : bool :=
  match b with Some true => true | _ => false end.

(** ** The host's timers *)

(** [setTimeout] and [setInterval]: the host hands out a fresh handle and
    remembers what to run. *)
Definition hostSet (repeat : bool) (f : hostFn) (d : option Z) (s : state) : handle * state :=
  let h := next_handle s in
  (h, State (base s) (heap s) (next_ref s) (timerPool s) (callbacksPool s) (closures s)
            (next_closure s) (<[h := HostEntry f d repeat]> (pending s)) (S h) (log s)).

Definition setTimeout := hostSet false.
Definition setInterval := hostSet true.

(** [clearTimeout] and [clearInterval] share one table of handles; clearing
    [null], [undefined] or a handle that is not armed does nothing. *)
Definition hostClear (v : jsval handle) (s : state) : state :=
  match v with
  | Defined h => with_pending (delete h (pending s)) s
  | _ => s
  end.

Definition clearTimeout := hostClear.
Definition clearInterval := hostClear.

(** ** The registry *)

Definition addTimerToPool (r : ref) (s : state) : nat * state :=
  let p := timerPool s ++ [r] in
  ((length p - 1)%nat, with_timerPool p s).

(** [ToInteger] as [splice] applies it to its first argument. *)
Definition toInteger (v : option nat) : nat := default 0%nat v.

(** [timerPool.splice(timer.id, 1)]: the entry at that position goes, if
    there is one. *)
Definition removeTimerFromPool (this : target) (s : state) : option state :=
  o ← get this s;
  Some (with_timerPool (delete (toInteger (timer_id o)) (timerPool s)) s).

Definition cleanupCallback (cb : retired) (s : state) : state :=
  with_callbacksPool (callbacksPool s ++ [cb]) s.

Definition poolSize (s : state) : Z := Z.of_nat (length (timerPool s)) - 5.

(** ** Methods *)

Definition AbstractTimer_cancel (this : target) (s : state) : option state :=
  upd this (fun o => set_running (Some false) (set_timer Null o)) s.

Definition AbstractTimer_isRunning (this : target) (s : state) : option (option bool) :=
  o ← get this s; Some (_running o).

(** [callback()] without an argument: build the wrapper once, then reuse. *)
Definition AbstractTimer_callback (this : target) (s : state) : option (jsval wrapper * state) :=
  o ← get this s;
  match _timerFn o with
  | Null =>
      let w := Defined (Wrapper (_callback o) this) in
      s' ← upd this (set_timerFn w) s;
      Some (w, s')
  | v => Some (v, s)
  end.

(** [timer(v)] with a defined argument. *)
Definition AbstractTimer_timer_set (v : handle) (this : target) (s : state) : option state :=
  upd this (set_timer (Defined v)) s.

Definition Timer_cancel (this : target) (s : state) : option state :=
  o ← get this s;
  AbstractTimer_cancel Base (clearTimeout (_timer o) s).

Definition Timer_restart (this : target) (s : state) : option state :=
  '(w, s1) ← AbstractTimer_callback this s;
  o ← get this s1;
  let '(h, s2) := setTimeout (HCall w) (_interval o) s1 in
  AbstractTimer_timer_set h this s2.

Definition IntervalTimer_cancel (this : target) (s : state) : option state :=
  o ← get this s;
  AbstractTimer_cancel this (clearInterval (_timer o) s).

(** [this.cancel()]: resolved through the receiver's prototype chain. *)
Definition cancel (this : target) (s : state) : option state :=
  k ← classOf this s;
  match k with
  | AbstractTimer => AbstractTimer_cancel this s
  | IntervalTimer => IntervalTimer_cancel this s
  | Timer | MultiTimer | OneShotTimer | OneShotTrigger => Timer_cancel this s
  end.

Definition AbstractTimer_restart (this : target) (s : state) : option state :=
  s1 ← cancel this s;
  upd this (fun o => set_paused (Some false) (set_running (Some true) o)) s1.

Definition IntervalTimer_restart (this : target) (s : state) : option state :=
  s0 ← cancel this s;
  '(w, s1) ← AbstractTimer_callback this s0;
  o ← get this s1;
  let '(h, s2) := setInterval (HCall w) (_interval o) s1 in
  AbstractTimer_timer_set h this s2.

Definition OneShotTimer_restart (this : target) (s : state) : option state :=
  o ← get this s;
  if negb (truthy (_paused o)) && truthy (_running o)
  then Some s
  else Timer_restart this s.

(** [this.restart()]. *)
Definition restart (this : target) (s : state) : option state :=
  k ← classOf this s;
  match k with
  | AbstractTimer => AbstractTimer_restart this s
  | IntervalTimer => IntervalTimer_restart this s
  | Timer | MultiTimer => Timer_restart this s
  | OneShotTimer | OneShotTrigger => OneShotTimer_restart this s
  end.

Definition AbstractTimer_kill (this : target) (s : state) : option state :=
  o ← get this s;
  s1 ← cancel this (cleanupCallback (RWrapper (_timerFn o)) s);
  s2 ← removeTimerFromPool this s1;
  upd this (set_timer Null) s2.

Definition Timer_kill (this : target) (s : state) : option state :=
  s1 ← cancel this s;
  AbstractTimer_kill Base s1.

Definition IntervalTimer_kill (this : target) (s : state) : option state :=
  s1 ← cancel this s;
  AbstractTimer_kill this s1.

(** [this.kill()]. *)
Definition kill (this : target) (s : state) : option state :=
  k ← classOf this s;
  match k with
  | AbstractTimer => AbstractTimer_kill this s
  | IntervalTimer => IntervalTimer_kill this s
  | Timer | MultiTimer | OneShotTimer | OneShotTrigger => Timer_kill this s
  end.

Definition pause (this : target) (s : state) : option state :=
  s1 ← cancel this s;
  upd this (set_paused (Some true)) s1.

Definition isRunning := AbstractTimer_isRunning.

(** [callback(f)] with a defined argument. *)
Definition callback_set (f : fn) (this : target) (s : state) : option state :=
  s1 ← upd this (fun o => set_timerFn Null (set_callback (Some f) o)) s;
  r ← isRunning this s1;
  if truthy r then restart this s1 else Some s1.

(** [interval(v)] with a defined argument. *)
Definition interval_set (v : Z) (this : target) (s : state) : option state :=
  s1 ← cancel this s;
  upd this (set_interval (Some v)) s1.

(** ** Callbacks *)

(** A caller-supplied function is opaque: calling it is recorded, with the
    registry as it stands at that moment, and changes nothing else. *)
Definition callUser (c : nat) (this : receiver) (args : list Z) (s : state) : state :=
  with_log (log s ++ [Event c this args (timerPool s)]) s.

(** The counters of a [MultiTimer] are IEEE-754 doubles.  A repetition
    count is taken to be a finite double holding an integer; the counters
    move by one at a time, so their arithmetic is that of integers followed
    by rounding: [roundDouble x] is the double nearest to the integer [x], a
    tie going to the even significand.  Integers of magnitude up to 2^53
    are doubles; beyond, doubles are 2, 4, 8, ... apart.  (Overflow is left
    out: one step from a finite double never reaches it.) *)
Definition roundDouble (x : Z) : Z :=
  let a := Z.abs x in
  if a <=? 2 ^ 53 then x
  else
    let ulp := 2 ^ (Z.log2 a - 52) in
    let q := a / ulp in
    let r := a mod ulp in
    let q' := if 2 * r <? ulp then q
              else if ulp <? 2 * r then q + 1
              else if Z.even q then q else q + 1 in
    Z.sgn x * (q' * ulp).
Arguments roundDouble : simpl never.

(** The body of [MultiTimer]'s [internalCallback], [aC] being closure [cl]:
    [aC.repetitions-- > 0] compares the value before the decrement;
    [aC.callbackFunction.call(this, ...)] has the timer as receiver,
    [aC.completionCallback()] has [aC] itself. *)
Definition internalCallback (cl : nat) (this : target) (s : state) : option state :=
  aC ← closures s !! cl;
  let s1 := with_closures
              (<[cl := MultiClosure (callbackFunction aC) (completionCallback aC)
                                    (roundDouble (repetitions aC - 1))
                                    (totalRepetitions aC)]> (closures s)) s in
  if 0 <? repetitions aC then
    c ← callbackFunction aC;
    let s2 := callUser c (ThisTimer this) [totalRepetitions aC] s1 in
    let s3 := with_closures
                (<[cl := MultiClosure (callbackFunction aC) (completionCallback aC)
                                      (roundDouble (repetitions aC - 1))
                                      (roundDouble (totalRepetitions aC + 1))]>
                   (closures s2)) s2 in
    restart this s3
  else
    let s2 := match completionCallback aC with
              | Some c => callUser c (ThisFunction (FMulti cl)) [] s1
              | None => s1
              end in
    s3 ← kill this s2;
    Some (cleanupCallback (RFn (FMulti cl)) s3).

(** [f.call(this)] for each kind of function value: a caller's function,
    [internalCallback], [OneShotTimer]'s [innerCallback] and
    [OneShotTrigger]'s [completionCallback].  Calling [undefined] throws. *)
Fixpoint call (f : fn) (this : target) (s : state) : option state :=
  match f with
  | FUser c => Some (callUser c (ThisTimer this) [] s)
  | FMulti cl => internalCallback cl this s
  | FOneShot None => Some s
  | FOneShot (Some g) =>
      s1 ← call g this s;
      s2 ← kill this s1;
      Some (cleanupCallback (RFn f) s2)
  | FTrigger sub cb =>
      s1 ← kill (Obj sub) s;
      match cb with
      | None => None
      | Some g =>
          s2 ← call g this s1;
          Some (cleanupCallback (RFn f) s2)
      end
  end.

(** The wrapper built by [callback()], when the host runs it. *)
Definition callWrapper (w : wrapper) (s : state) : option state :=
  match timerCallback w with
  | Some f => call f (timer w) s
  | None => Some s
  end.

(** The periodic sweep of [callbacksPool]. *)
Definition sweep (s : state) : state := with_callbacksPool [] s.

(** The host fires the armed timer [h]: a timeout is disarmed first, an
    interval stays armed.  Firing a handle that is not armed does nothing. *)
Definition fire (h : handle) (s : state) : option state :=
  match pending s !! h with
  | None => Some s
  | Some e =>
      let s1 := if h_repeat e then s else with_pending (delete h (pending s)) s in
      match h_fn e with
      | HCall (Defined w) => callWrapper w s1
      | HCall _ => Some s1
      | HSweep => Some (sweep s1)
      end
  end.

(** ** Constructors *)

(** The body of the [AbstractTimer] constructor, run on a new object whose
    prototype chain is that of class [k]. *)
Definition construct (k : klass) (interval : option Z) (callback : option fn)
    (s : state) : option (ref * state) :=
  let r := next_ref s in
  let '(i, s1) := addTimerToPool r s in
  let o := TimerObj Null interval callback (Some false) (Some false) Null (Some i) k in
  let s2 := State (base s1) (<[r := o]> (heap s1)) (S r) (timerPool s1) (callbacksPool s1)
                  (closures s1) (next_closure s1) (pending s1) (next_handle s1) (log s1) in
  s3 ← restart (Obj r) s2;
  Some (r, s3).

Definition new_Timer := construct Timer.
Definition new_IntervalTimer := construct IntervalTimer.

Definition new_MultiTimer (interval : option Z) (callback : option nat) (reps : Z)
    (completion : option nat) (s : state) : option (ref * state) :=
  let cl := next_closure s in
  let s1 := State (base s) (heap s) (next_ref s) (timerPool s) (callbacksPool s)
                  (<[cl := MultiClosure callback completion reps 0]> (closures s)) (S cl)
                  (pending s) (next_handle s) (log s) in
  construct MultiTimer interval (Some (FMulti cl)) s1.

Definition new_OneShotTimer (interval : option Z) (callback : option fn) :=
  construct OneShotTimer interval (Some (FOneShot callback)).

Definition new_OneShotTrigger (interval : option Z) (callback : option fn)
    (triggerInterval : option Z) (triggerCallback : option fn)
    (s : state) : option (ref * state) :=
  '(sub, s1) ← new_IntervalTimer triggerInterval triggerCallback s;
  construct OneShotTrigger interval (Some (FOneShot (Some (FTrigger sub callback)))) s1.

(** ** The public object [TimersJS] *)

Module TimersJS.

Definition timer (interval : Z) (callback : nat) :=
  new_Timer (Some interval) (Some (FUser callback)).
Definition repeater (interval : Z) (callback : nat) :=
  new_IntervalTimer (Some interval) (Some (FUser callback)).
Definition multi (interval reps : Z) (callback : nat) (completionCallback : option nat) :=
  new_MultiTimer (Some interval) (Some callback) reps completionCallback.
Definition oneShot (interval : Z) (callback : nat) :=
  new_OneShotTimer (Some interval) (Some (FUser callback)).
Definition trigger (interval : Z) (callback : nat) (triggerRate : Z) (triggerCallback : nat) :=
  new_OneShotTrigger (Some interval) (Some (FUser callback))
                       (Some triggerRate) (Some (FUser triggerCallback)).

End TimersJS.

(** How a [while] loop run with bounded fuel ends. *)
Inductive outcome : Type :=
  | Finished (s : state)
  | Thrown
  | OutOfFuel.

(** [while (timerPool.length > 0) timerPool[0].cancel();] *)
Fixpoint cancelAllTimers (fuel : nat) (s : state) : outcome :=
  match fuel with
  | O => OutOfFuel
  | S n =>
      match timerPool s with
      | [] => Finished s
      | r :: _ =>
          match cancel (Obj r) s with
          | Some s' => cancelAllTimers n s'
          | None => Thrown
          end
      end
  end.

(** [while (timerPool.length > 0) timerPool[0].kill();] *)
Fixpoint killAllTimers (fuel : nat) (s : state) : outcome :=
  match fuel with
  | O => OutOfFuel
  | S n =>
      match timerPool s with
      | [] => Finished s
      | r :: _ =>
          match kill (Obj r) s with
          | Some s' => killAllTimers n s'
          | None => Thrown
          end
      end
  end.

(** [for (var i = 0; i < timerPool.length; i++) timerPool[i].m();] with the
    bound read again at every turn. *)
Fixpoint forEachTimer (m : target -> state -> option state) (fuel i : nat) (s : state)
    : outcome :=
  match fuel with
  | O => OutOfFuel
  | S n =>
      match timerPool s !! i with
      | None => Finished s
      | Some r =>
          match m (Obj r) s with
          | Some s' => forEachTimer m n (S i) s'
          | None => Thrown
          end
      end
  end.

Definition pauseAllTimers (fuel : nat) : state -> outcome := forEachTimer pause fuel 0.
Definition restartAllTimers (fuel : nat) : state -> outcome := forEachTimer restart fuel 0.

(** The loop of the periodic sweep:
    [while (callbacksPool.length > 0) { callbacksPool[0] = null; callbacksPool.shift(); }] *)
Fixpoint sweepLoop (fuel : nat) (s : state) : outcome :=
  match fuel with
  | O => OutOfFuel
  | S n =>
      match callbacksPool s with
      | [] => Finished s
      | _ :: rest => sweepLoop n (with_callbacksPool rest s)
      end
  end.

(** ** Loading the script *)

Definition undefinedObj (k : klass) : timerObj :=
  TimerObj Undefined None None None None Undefined None k.

Definition empty : state :=
  State (undefinedObj AbstractTimer) ∅ 0%nat [] [] ∅ 0%nat ∅ 1%nat [].

(** Assigning [cancel], [kill] or [restart] on a prototype object after it
    was built: from then on the object resolves them as class [k] does. *)
Definition install (k : klass) (r : ref) (s : state) : option state :=
  upd (Obj r) (set_proto k) s.

(** The top-level statements, in order: each [X.prototype = new Y()] runs
    [Y]'s constructor, so each prototype object enters [timerPool]; the
    last statement arms the sweep. *)
Definition load : option state :=
  '(tp, s) ← construct AbstractTimer None None empty;
  s ← install Timer tp s;
  '(itp, s) ← construct AbstractTimer None None s;
  s ← install IntervalTimer itp s;
  '(_, s) ← new_Timer None None s;
  '(osp, s) ← new_Timer None None s;
  s ← install OneShotTimer osp s;
  '(_, s) ← new_OneShotTimer None None s;
  Some (snd (setInterval HSweep (Some 500) s)).

(** The state right after the script has loaded. *)
Definition loaded : state := default empty load.

(** ** Auxiliary definitions for the statements *)

(** The state after [AbstractTimer.prototype.cancel] has run on
    [AbstractTimer.prototype] itself, and on object [r] read as [o]. *)
Definition cancelBase (s : state) : state :=
  with_base (set_running (Some false) (set_timer Null (base s))) s.

Definition cancelOwn (r : ref) (o : timerObj) (s : state) : state :=
  with_heap (<[r := set_running (Some false) (set_timer Null o)]> (heap s)) s.

(** [AbstractTimer.prototype.kill] run on [AbstractTimer.prototype] itself,
    which is what [Timer.base.kill()] does. *)
Definition killBase (s : state) : state :=
  let s1 := cancelBase (cleanupCallback (RWrapper (_timerFn (base s))) s) in
  let s2 := with_timerPool (delete (toInteger (timer_id (base s1))) (timerPool s1)) s1 in
  with_base (set_timer Null (base s2)) s2.

(** One turn of the loop of [killAllTimers]. *)
Definition killHead (s : state) : option state :=
  match timerPool s with
  | [] => None
  | r :: _ => kill (Obj r) s
  end.

(** The host fires the timeout that timer [t] currently holds. *)
Definition fireTimer (t : ref) (s : state) : option state :=
  o ← heap s !! t;
  match _timer o with
  | Defined h => fire h s
  | _ => Some s
  end.

Fixpoint fireTimes (n : nat) (t : ref) (s : state) : option state :=
  match n with
  | O => Some s
  | S n => s' ← fireTimer t s; fireTimes n t s'
  end.

(** The calls a [MultiTimer] is expected to make: the caller's function
    with 0, 1, ..., n-1, then the completion function if there is one. *)
Definition repetitionCalls (cb : nat) (t : ref) (pool : list ref) (n : nat) : list event :=
  map (fun i => Event cb (ThisTimer (Obj t)) [Z.of_nat i] pool) (seq 0 n).

Definition completionCall (done : option nat) (cl : nat) (pool : list ref) : list event :=
  match done with
  | Some d => [Event d (ThisFunction (FMulti cl)) [] pool]
  | None => []
  end.





(** The wrapper [callback()] returns for object [o]: the memoized one, or a
    new one when the slot holds [null]. *)
Definition wrapperOf (this : target) (o : timerObj) : jsval wrapper :=
  match _timerFn o with
  | Null => Defined (Wrapper (_callback o) this)
  | v => v
  end.

(** The state once object [r], read as [o], has been armed on the host. *)
Definition arm (repeat : bool) (r : ref) (o : timerObj) (s : state) : state :=
  let w := wrapperOf (Obj r) o in
  State (base s)
        (<[r := set_timer (Defined (next_handle s)) (set_timerFn w o)]> (heap s))
        (next_ref s) (timerPool s) (callbacksPool s) (closures s) (next_closure s)
        (<[next_handle s := HostEntry (HCall w) (_interval o) repeat]> (pending s))
        (S (next_handle s)) (log s).

(** [s'] has the objects of [s] and no other, and its registry is the
    registry of [s] with some entries possibly gone: between the two no
    timer was constructed and none was registered. *)
Definition keeps (s s' : state) : Prop :=
  timerPool s' `sublist_of` timerPool s /\
  next_ref s' = next_ref s /\
  dom (heap s') = dom (heap s).



(** The state [restart()] leaves when run on object [r], read as [o]. *)
Definition restarted (r : ref) (o : timerObj) (s : state) : state :=
  match proto o with
  | AbstractTimer =>
      with_heap (<[r := set_paused (Some false) (set_running (Some true) (set_timer Null o))]>
                   (heap s)) s
  | IntervalTimer =>
      arm true r (set_running (Some false) (set_timer Null o))
          (cancelOwn r o (clearInterval (_timer o) s))
  | Timer | MultiTimer => arm false r o s
  | OneShotTimer | OneShotTrigger =>
      if negb (truthy (_paused o)) && truthy (_running o) then s else arm false r o s
  end.

(** The state [cancel()] leaves when run on object [r], read as [o]. *)
Definition cancelled (r : ref) (o : timerObj) (s : state) : state :=
  match proto o with
  | AbstractTimer => cancelOwn r o s
  | IntervalTimer => cancelOwn r o (clearInterval (_timer o) s)
  | _ => cancelBase (clearTimeout (_timer o) s)
  end.

(** The object [r] holds once [cancel()] has run on it. *)
Definition cancelledObj (o : timerObj) : timerObj :=
  match proto o with
  | AbstractTimer | IntervalTimer => set_running (Some false) (set_timer Null o)
  | _ => o
  end.

(** The state [kill()] leaves when run on an [IntervalTimer] object. *)
Definition killedOwn (r : ref) (o : timerObj) (s : state) : state :=
  State (base s) (<[r := set_running (Some false) (set_timer Null o)]> (heap s)) (next_ref s)
        (delete (toInteger (timer_id o)) (timerPool s))
        (callbacksPool s ++ [RWrapper (_timerFn o)]) (closures s) (next_closure s)
        (pending (clearInterval (_timer o) s)) (next_handle s) (log s).

(** The entry [restart()] hands to the host for object [o]. *)
Definition armedEntry (r : ref) (o : timerObj) : hostEntry :=
  HostEntry (HCall (wrapperOf (Obj r) o)) (_interval o) (bool_decide (proto o = IntervalTimer)).

(** The object the [AbstractTimer] constructor initialises, and the state
    once it is stored and registered, before [this.restart()]. *)
Definition newObj (k : klass) (interval : option Z) (callback : option fn) (s : state) : timerObj :=
  TimerObj Null interval callback (Some false) (Some false) Null
           (Some (length (timerPool s ++ [next_ref s]) - 1)%nat) k.

Definition allocated (k : klass) (interval : option Z) (callback : option fn) (s : state) : state :=
  State (base s) (<[next_ref s := newObj k interval callback s]> (heap s)) (S (next_ref s))
        (timerPool s ++ [next_ref s]) (callbacksPool s) (closures s) (next_closure s)
        (pending s) (next_handle s) (log s).

(** Every entry of the registry denotes an object of the store. *)
Definition registryInStore (s : state) : Prop :=
  forall r, r ∈ timerPool s -> is_Some (heap s !! r).

(** The classes whose [restart] arms the host whatever the flags say. *)
Definition armsAlways (k : klass) : Prop := k = Timer \/ k = MultiTimer \/ k = IntervalTimer.

(** Every handle held by a registered object was issued by the host. *)
Definition handlesIssued (s : state) : Prop :=
  forall r o h, r ∈ timerPool s -> heap s !! r = Some o -> _timer o = Defined h ->
                (h < next_handle s)%nat.

(** Every entry of the registry denotes an object that inherits
    [Timer.prototype.kill]. *)
Definition delayClassOnly (s : state) : Prop :=
  forall r, r ∈ timerPool s ->
    exists o, heap s !! r = Some o /\ proto o <> AbstractTimer /\ proto o <> IntervalTimer.

(** * Properties *)

(** ** What [cancel] does, class by class *)

Lemma cancel_Base s : cancel Base s = Some (cancelBase s).
Proof. reflexivity. Qed.

Lemma cancel_Obj r o s :
  heap s !! r = Some o ->
  cancel (Obj r) s =
    Some match proto o with
         | AbstractTimer => cancelOwn r o s
         | IntervalTimer => cancelOwn r o (clearInterval (_timer o) s)
         | _ => cancelBase (clearTimeout (_timer o) s)
         end.
Proof.
  intros E. unfold cancel, classOf. rewrite E. simpl.
  destruct (proto o); simpl;
    unfold Timer_cancel, IntervalTimer_cancel, AbstractTimer_cancel, get, upd;
    try rewrite E; simpl; try reflexivity.
  all: destruct (_timer o); simpl; rewrite ?E; reflexivity.
Qed.

Lemma cancel_None r s : heap s !! r = None -> cancel (Obj r) s = None.
Proof. intros E. unfold cancel, classOf. rewrite E. reflexivity. Qed.

Lemma heap_hostClear v s : heap (hostClear v s) = heap s.
Proof. destruct v; reflexivity. Qed.

Lemma timerPool_hostClear v s : timerPool (hostClear v s) = timerPool s.
Proof. destruct v; reflexivity. Qed.

(** [cancel] succeeds on every object there is, … *)
Lemma cancel_is_Some this s : is_Some (get this s) -> is_Some (cancel this s).
Proof.
  destruct this as [|r]; simpl.
  - intros _. rewrite cancel_Base. eauto.
  - intros [o E]. rewrite (cancel_Obj _ _ _ E). eauto.
Qed.

(** … leaves the registry as it was, … *)
Lemma cancel_timerPool this s s' : cancel this s = Some s' -> timerPool s' = timerPool s.
Proof.
  destruct this as [|r].
  - rewrite cancel_Base. intros [= <-]. reflexivity.
  - destruct (heap s !! r) as [o|] eqn:E.
    + rewrite (cancel_Obj _ _ _ E). intros [= <-].
      destruct (proto o); simpl; apply timerPool_hostClear || reflexivity.
    + rewrite (cancel_None _ _ E). discriminate.
Qed.

(** … and keeps every object in the store. *)
Lemma cancel_dom this s s' : cancel this s = Some s' -> dom (heap s') = dom (heap s).
Proof.
  assert (Hown : forall r o s0, heap s0 !! r = Some o ->
            dom (heap (cancelOwn r o s0)) = dom (heap s0)).
  { intros r o s0 E. simpl. rewrite dom_insert_L.
    apply (elem_of_dom_2 (D := gset ref)) in E.
    apply leibniz_equiv, subseteq_union_1, singleton_subseteq_l, E. }
  destruct this as [|r].
  - rewrite cancel_Base. intros [= <-]. reflexivity.
  - destruct (heap s !! r) as [o|] eqn:E.
    + rewrite (cancel_Obj _ _ _ E). intros [= <-].
      unfold clearTimeout, clearInterval.
      destruct (proto o);
        first [ rewrite Hown by (rewrite ?heap_hostClear; exact E) | unfold cancelBase; simpl ];
        rewrite ?heap_hostClear; reflexivity.
    + rewrite (cancel_None _ _ E). discriminate.
Qed.

(** C10: for every timer variant and every state, a second [cancel()] in a
    row changes nothing: the whole state after two calls (the timer's
    handle, flags, interval and callback, the host's armed timers, the
    registry) is the state after one. *)
Theorem cancel_idempotent (this : target) (s s' : state) :
  cancel this s = Some s' -> cancel this s' = Some s'.
Proof.
  destruct this as [|r].
  - rewrite !cancel_Base. intros [= <-]. reflexivity.
  - destruct (heap s !! r) as [o|] eqn:E.
    2:{ rewrite (cancel_None _ _ E). discriminate. }
    rewrite (cancel_Obj _ _ _ E). intros [= <-].
    destruct (proto o) eqn:P.
    2,4,5,6:
      rewrite (cancel_Obj r o) by (simpl; rewrite heap_hostClear; exact E);
      rewrite P; f_equal;
      destruct (_timer o); try reflexivity;
      unfold cancelBase, clearTimeout, hostClear, with_base, with_pending; simpl;
      f_equal; apply delete_delete_eq.
    + rewrite (cancel_Obj r (set_running (Some false) (set_timer Null o)))
        by (simpl; apply lookup_insert_eq).
      simpl. rewrite P. unfold cancelOwn, with_heap. simpl.
      rewrite insert_insert_eq. reflexivity.
    + rewrite (cancel_Obj r (set_running (Some false) (set_timer Null o)))
        by (simpl; apply lookup_insert_eq).
      simpl. rewrite P. unfold cancelOwn, with_heap. simpl.
      rewrite insert_insert_eq. reflexivity.
Qed.

(** ** What [kill] does, class by class *)

Lemma AbstractTimer_kill_Base s : AbstractTimer_kill Base s = Some (killBase s).
Proof. reflexivity. Qed.

Lemma timerPool_killBase s :
  timerPool (killBase s) = delete (toInteger (timer_id (base s))) (timerPool s).
Proof. reflexivity. Qed.

(** Every class below [Timer] inherits [Timer.prototype.kill]: the entry
    that leaves the registry is the one at [Timer.base.id]. *)
Lemma kill_Timer r o s :
  heap s !! r = Some o ->
  proto o <> AbstractTimer -> proto o <> IntervalTimer ->
  kill (Obj r) s = Some (killBase (cancelBase (clearTimeout (_timer o) s))).
Proof.
  intros E HA HI. unfold kill, classOf. rewrite E. simpl.
  destruct (proto o) eqn:P; try contradiction; simpl;
    unfold Timer_kill; rewrite (cancel_Obj _ _ _ E), P; reflexivity.
Qed.

(** [AbstractTimer.prototype.kill] run on an object whose own [cancel] is
    the base one or [IntervalTimer]'s: the entry at the object's [id]
    leaves the registry. *)
Lemma AbstractTimer_kill_own r o s :
  heap s !! r = Some o ->
  proto o = AbstractTimer \/ proto o = IntervalTimer ->
  exists s' o',
    AbstractTimer_kill (Obj r) s = Some s' /\
    timerPool s' = delete (toInteger (timer_id o)) (timerPool s) /\
    heap s' = <[r := o']> (heap s) /\
    proto o' = proto o /\ timer_id o' = timer_id o /\
    closures s' = closures s /\ log s' = log s /\ next_ref s' = next_ref s.
Proof.
  intros E HP.
  set (o1 := set_running (Some false) (set_timer Null o)).
  set (s0 := cleanupCallback (RWrapper (_timerFn o)) s).
  assert (E0 : heap s0 !! r = Some o) by exact E.
  unfold AbstractTimer_kill. simpl get. rewrite E. simpl.
  fold s0. rewrite (cancel_Obj _ _ _ E0).
  set (s1 := match proto o with
             | AbstractTimer => cancelOwn r o s0
             | IntervalTimer => cancelOwn r o (clearInterval (_timer o) s0)
             | _ => cancelBase (clearTimeout (_timer o) s0)
             end).
  assert (H1 : heap s1 = <[r := o1]> (heap s) /\ timerPool s1 = timerPool s /\
               closures s1 = closures s /\ log s1 = log s /\ next_ref s1 = next_ref s).
  { subst s1. destruct HP as [-> | ->]; simpl; [easy|].
    destruct (_timer o); simpl; easy. }
  destruct H1 as (Hh & Hp & Hc & Hl & Hn).
  assert (E1 : heap s1 !! r = Some o1) by (rewrite Hh; apply lookup_insert_eq).
  simpl. unfold removeTimerFromPool. simpl get. rewrite E1. simpl.
  unfold upd. simpl. rewrite E1. simpl.
  eexists _, (set_timer Null o1). split; [reflexivity|]. simpl.
  rewrite Hh, Hp, Hc, Hl, Hn, insert_insert_eq. easy.
Qed.

Lemma kill_IntervalTimer r o s :
  heap s !! r = Some o -> proto o = IntervalTimer ->
  exists s' o',
    kill (Obj r) s = Some s' /\
    timerPool s' = delete (toInteger (timer_id o)) (timerPool s) /\
    heap s' = <[r := o']> (heap s) /\
    proto o' = IntervalTimer /\ timer_id o' = timer_id o /\
    closures s' = closures s /\ log s' = log s /\ next_ref s' = next_ref s.
Proof.
  intros E P. unfold kill, classOf. rewrite E. simpl. rewrite P.
  unfold IntervalTimer_kill. rewrite (cancel_Obj _ _ _ E), P. simpl.
  set (o1 := set_running (Some false) (set_timer Null o)).
  set (s1 := cancelOwn r o (clearInterval (_timer o) s)).
  assert (H1 : heap s1 = <[r := o1]> (heap s) /\ timerPool s1 = timerPool s /\
               closures s1 = closures s /\ log s1 = log s /\ next_ref s1 = next_ref s).
  { subst s1. destruct (_timer o); simpl; easy. }
  destruct H1 as (Hh & Hp & Hc & Hl & Hn).
  assert (E1 : heap s1 !! r = Some o1) by (rewrite Hh; apply lookup_insert_eq).
  destruct (AbstractTimer_kill_own r o1 s1 E1) as (s' & o' & K & Kp & Kh & Kc & Ki & Kcl & Kl & Kn).
  { right. exact P. }
  exists s', o'. split; [exact K|].
  rewrite Kp, Kh, Kc, Ki, Kcl, Kl, Kn, Hh, Hp, Hc, Hl, Hn, insert_insert_eq.
  simpl. easy.
Qed.

Lemma kill_IntervalTimer_eq r o s :
  heap s !! r = Some o -> proto o = IntervalTimer ->
  kill (Obj r) s = Some (killedOwn r o s).
Proof.
  intros E P. unfold kill, classOf. rewrite E. simpl. rewrite P.
  unfold IntervalTimer_kill. rewrite (cancel_Obj _ _ _ E), P. simpl.
  set (o1 := set_running (Some false) (set_timer Null o)).
  unfold AbstractTimer_kill. simpl get. unfold cancelOwn at 1. simpl heap.
  rewrite lookup_insert_eq. simpl.
  rewrite (cancel_Obj r o1) by (simpl; apply lookup_insert_eq).
  simpl. rewrite P. simpl.
  unfold removeTimerFromPool. simpl. rewrite lookup_insert_eq. simpl.
  unfold upd. simpl. rewrite lookup_insert_eq. simpl.
  unfold killedOwn, with_heap. simpl.
  rewrite !insert_insert_eq, timerPool_hostClear.
  destruct (_timer o); reflexivity.
Qed.

Lemma pending_hostClear_subseteq v s : pending (hostClear v s) ⊆ pending s.
Proof. destruct v; simpl; try reflexivity. apply delete_subseteq. Qed.

Lemma restarted_lookup r o s :
  heap s !! r = Some o ->
  exists o', heap (restarted r o s) !! r = Some o' /\
             timer_id o' = timer_id o /\ proto o' = proto o /\
             _interval o' = _interval o /\ _callback o' = _callback o.
Proof.
  intros E. unfold restarted. destruct (proto o) eqn:P; simpl.
  1-4: eexists; (split; [apply lookup_insert_eq|]); simpl; auto.
  all: destruct (negb (truthy (_paused o)) && truthy (_running o)); simpl;
    [ exists o; auto | eexists; (split; [apply lookup_insert_eq|]); simpl; auto ].
Qed.



(** ** The bulk loops *)

(** On a registry whose first entry is an object of the store, no amount of
    fuel lets [cancelAllTimers] come to an end: [cancel] never shortens
    [timerPool]. *)
Lemma cancelAllTimers_stuck fuel : forall s r rest,
  timerPool s = r :: rest -> is_Some (heap s !! r) ->
  cancelAllTimers fuel s = OutOfFuel.
Proof.
  induction fuel as [|fuel IH]; intros s r rest Hp Hr; [reflexivity|].
  simpl. rewrite Hp.
  destruct (cancel_is_Some (Obj r) s Hr) as [s' C]. rewrite C.
  apply (IH s' r rest).
  - rewrite (cancel_timerPool _ _ _ C). exact Hp.
  - apply (proj1 (elem_of_dom (D := gset ref) (heap s') r)).
    rewrite (cancel_dom _ _ _ C).
    apply (proj2 (elem_of_dom (D := gset ref) (heap s) r)). exact Hr.
Qed.

(** Whenever [killAllTimers] does come to an end, the registry is empty and
    [poolSize], which subtracts the five prototype objects, reports -5. *)
Lemma killAllTimers_Finished fuel : forall s s',
  killAllTimers fuel s = Finished s' -> timerPool s' = [] /\ poolSize s' = -5.
Proof.
  induction fuel as [|fuel IH]; intros s s'; simpl; [discriminate|].
  destruct (timerPool s) as [|r rest] eqn:Hp.
  - intros [= <-]. unfold poolSize. rewrite Hp. split; reflexivity.
  - destruct (kill (Obj r) s) as [s1|]; [apply IH | discriminate].
Qed.

(** A registry reduced to one [IntervalTimer] object whose [id] is not 0:
    [splice(id, 1)] finds nothing at that position, the loop spins. *)
Lemma killAllTimers_stuck fuel : forall s r o i,
  timerPool s = [r] -> heap s !! r = Some o ->
  proto o = IntervalTimer -> timer_id o = Some (S i) ->
  killAllTimers fuel s = OutOfFuel.
Proof.
  induction fuel as [|fuel IH]; intros s r o i Hp Hr HP Hi; [reflexivity|].
  simpl. rewrite Hp.
  destruct (kill_IntervalTimer r o s Hr HP)
    as (s' & o' & K & Kp & Kh & KP & Ki & _).
  rewrite K. apply (IH s' r o' i).
  - rewrite Kp, Hp, Hi. reflexivity.
  - rewrite Kh. apply lookup_insert_eq.
  - exact KP.
  - rewrite Ki. exact Hi.
Qed.

Lemma killAllTimers_head fuel s s' :
  killHead s = Some s' -> killAllTimers (S fuel) s = killAllTimers fuel s'.
Proof.
  unfold killHead. simpl. destruct (timerPool s); [discriminate|].
  intros ->. reflexivity.
Qed.

(** C6: [cancelAllTimers()] called on the registry as it is once the
    script has loaded (no timer of the caller's yet) never leaves its loop,
    whatever the fuel: the claim that it terminates fails. *)
Theorem cancelAllTimers_loaded_diverges :
  forall fuel, cancelAllTimers fuel loaded = OutOfFuel.
Proof.
  intros fuel. apply (cancelAllTimers_stuck fuel loaded 0%nat [1; 2; 3; 4]%nat).
  - vm_compute. reflexivity.
  - vm_compute. eauto.
Qed.

(** C5: [killAllTimers()] called on the registry as it is once the script
    has loaded never leaves its loop: after four turns the registry is down
    to [IntervalTimer.prototype], whose [id] is 1, and stays there. *)
Theorem killAllTimers_loaded_diverges :
  forall fuel, killAllTimers fuel loaded = OutOfFuel.
Proof.
  intros fuel.
  do 4 (destruct fuel as [|fuel]; [vm_compute; reflexivity|]).
  pose (k1 := default empty (killHead loaded)).
  pose (k2 := default empty (killHead k1)).
  pose (k3 := default empty (killHead k2)).
  pose (k4 := default empty (killHead k3)).
  rewrite (killAllTimers_head _ loaded k1) by (vm_compute; reflexivity).
  rewrite (killAllTimers_head _ k1 k2) by (vm_compute; reflexivity).
  rewrite (killAllTimers_head _ k2 k3) by (vm_compute; reflexivity).
  rewrite (killAllTimers_head _ k3 k4) by (vm_compute; reflexivity).
  eapply (killAllTimers_stuck fuel k4 1%nat); vm_compute; reflexivity.
Qed.

(** ** What [restart] does *)

(** The part the two arming [restart] methods share: fetch the wrapper,
    hand it to the host, store the handle. *)
Lemma arm_tail repeat r o s :
  heap s !! r = Some o ->
  ('(w, s1) ← AbstractTimer_callback (Obj r) s;
   o' ← get (Obj r) s1;
   let '(h, s2) := hostSet repeat (HCall w) (_interval o') s1 in
   AbstractTimer_timer_set h (Obj r) s2) = Some (arm repeat r o s).
Proof.
  intros E.
  unfold AbstractTimer_callback, AbstractTimer_timer_set, arm, wrapperOf, upd.
  simpl. rewrite E. simpl.
  destruct (_timerFn o) as [| |w0] eqn:F; simpl;
    rewrite ?E; simpl; rewrite ?lookup_insert_eq; simpl;
    rewrite ?E; simpl; rewrite ?lookup_insert_eq; simpl;
    unfold with_heap, set_timer, set_timerFn; simpl;
    rewrite ?F, ?insert_insert_eq; reflexivity.
Qed.

Lemma Timer_restart_Obj r o s :
  heap s !! r = Some o -> Timer_restart (Obj r) s = Some (arm false r o s).
Proof. apply (arm_tail false). Qed.

Lemma IntervalTimer_restart_Obj r o s :
  heap s !! r = Some o -> proto o = IntervalTimer ->
  IntervalTimer_restart (Obj r) s =
    Some (arm true r (set_running (Some false) (set_timer Null o))
              (cancelOwn r o (clearInterval (_timer o) s))).
Proof.
  intros E P. unfold IntervalTimer_restart. rewrite (cancel_Obj _ _ _ E), P. simpl.
  apply (arm_tail true). apply lookup_insert_eq.
Qed.

Lemma restart_Timer r o s :
  heap s !! r = Some o -> proto o = Timer \/ proto o = MultiTimer ->
  restart (Obj r) s = Some (arm false r o s).
Proof.
  intros E P. unfold restart, classOf. rewrite E. simpl.
  destruct P as [-> | ->]; apply Timer_restart_Obj, E.
Qed.

Lemma repetitionCalls_S cb t pool n :
  repetitionCalls cb t pool (S n) =
  repetitionCalls cb t pool n ++ [Event cb (ThisTimer (Obj t)) [Z.of_nat n] pool].
Proof. unfold repetitionCalls. rewrite seq_S, map_app. reflexivity. Qed.

(** ** Firing and pausing *)

Lemma cancel_cancelled r o s :
  heap s !! r = Some o -> cancel (Obj r) s = Some (cancelled r o s).
Proof. apply cancel_Obj. Qed.

Lemma heap_cancelled r o s :
  heap s !! r = Some o -> heap (cancelled r o s) = <[r := cancelledObj o]> (heap s).
Proof.
  intros E. unfold cancelled, cancelledObj.
  destruct (proto o); simpl; rewrite ?heap_hostClear; try reflexivity;
    symmetry; apply insert_id, E.
Qed.

Lemma fireTimer_idle r o s :
  heap s !! r = Some o ->
  match _timer o with Defined h => pending s !! h = None | _ => True end ->
  fireTimer r s = Some s.
Proof.
  intros E H. unfold fireTimer. rewrite E. simpl.
  destruct (_timer o); try reflexivity. unfold fire. rewrite H. reflexivity.
Qed.

Lemma pause_Obj r o s :
  heap s !! r = Some o ->
  pause (Obj r) s =
    Some (with_heap (<[r := set_paused (Some true) (cancelledObj o)]> (heap (cancelled r o s)))
                    (cancelled r o s)).
Proof.
  intros E. unfold pause. rewrite (cancel_cancelled _ _ _ E). simpl.
  unfold upd. rewrite (heap_cancelled _ _ _ E), lookup_insert_eq. reflexivity.
Qed.

Lemma fireTimes_idle n r s : fireTimer r s = Some s -> fireTimes n r s = Some s.
Proof. intros H. induction n as [|n IH]; [reflexivity|]. simpl. rewrite H. exact IH. Qed.

(** ** The counters of a [MultiTimer] *)

Lemma roundDouble_exact x : Z.abs x <= 2 ^ 53 -> roundDouble x = x.
Proof.
  intros H. unfold roundDouble. cbv zeta. apply Z.leb_le in H. rewrite H. reflexivity.
Qed.


(** ** A [MultiTimer] and the host *)

Section MultiTimer_run.

Variables (s : state) (interval : Z) (cb : nat) (done : option nat).

Let t : ref := next_ref s.
Let cl : nat := next_closure s.
Let h0 : handle := next_handle s.
Let pool1 : list ref := timerPool s ++ [t].
Let w : wrapper := Wrapper (Some (FMulti cl)) (Obj t).
Let e : hostEntry := HostEntry (HCall (Defined w)) (Some interval) false.
Let obj (h : handle) (p : option bool) : timerObj :=
  TimerObj (Defined h) (Some interval) (Some (FMulti cl)) (Some false) p
           (Defined w) (Some (length pool1 - 1)%nat) MultiTimer.

(** The timer holds the armed timeout [h] and nothing else of it is armed;
    its [_paused] flag is [p], it has [rem] repetitions left and has made
    its first [i] calls. *)
Record held (h : handle) (p : option bool) (rem : Z) (i : nat) (σ : state) : Prop := Held {
  held_heap : heap σ !! t = Some (obj h p);
  held_closure :
    closures σ !! cl = Some (MultiClosure (Some cb) done rem (roundDouble (Z.of_nat i)));
  held_pending : exists Q, pending σ = <[h := e]> Q /\ Q ⊆ pending s;
  held_next : next_handle σ = S h;
  held_pool : timerPool σ = pool1;
  held_log : log σ = log s ++ repetitionCalls cb t pool1 i
}.

(** The timer made its [i] calls and completed; nothing of it is armed. *)
Record completed (i : nat) (σ : state) : Prop := Completed {
  completed_idle : fireTimer t σ = Some σ;
  completed_pending : pending σ ⊆ pending s;
  completed_log : log σ = log s ++ repetitionCalls cb t pool1 i ++ completionCall done cl pool1
}.

Lemma multi_constructed N :
  exists s1, TimersJS.multi interval N cb done s = Some (t, s1) /\
             held h0 (Some false) N 0 s1.
Proof.
  unfold TimersJS.multi, new_MultiTimer, construct. simpl.
  match goal with |- context [restart (Obj ?r) ?s0] =>
    rewrite (restart_Timer r (TimerObj Null (Some interval) (Some (FMulti cl)) (Some false)
                                (Some false) Null (Some (length pool1 - 1)%nat) MultiTimer) s0)
      by (simpl; first [apply lookup_insert_eq | right; reflexivity])
  end.
  simpl. eexists. split; [reflexivity|].
  split; simpl.
  - rewrite insert_insert_eq, lookup_insert_eq. reflexivity.
  - rewrite lookup_insert_eq. reflexivity.
  - exists (pending s). split; reflexivity.
  - reflexivity.
  - reflexivity.
  - unfold repetitionCalls. simpl. rewrite app_nil_r. reflexivity.
Qed.

Lemma held_fire h p rem i σ :
  held h p rem i σ -> 0 < rem -> Z.of_nat i <= 2 ^ 53 ->
  exists σ', fireTimer t σ = Some σ' /\ held (S h) p (roundDouble (rem - 1)) (S i) σ'.
Proof.
  intros [Hh Hc (Q & HQ & HQs) Hn Hp Hl] Hpos Hi.
  rewrite (roundDouble_exact (Z.of_nat i)) in Hc by lia.
  unfold fireTimer. rewrite Hh. simpl.
  unfold fire. rewrite HQ, lookup_insert_eq. simpl.
  unfold callWrapper. simpl. unfold internalCallback. simpl. rewrite Hc. simpl.
  apply Z.ltb_lt in Hpos. rewrite Hpos. simpl.
  match goal with |- context [restart (Obj ?r) ?s0] =>
    rewrite (restart_Timer r (obj h p) s0)
      by (simpl; first [exact Hh | right; reflexivity])
  end.
  eexists. split; [reflexivity|].
  split; simpl.
  - rewrite lookup_insert_eq, Hn. reflexivity.
  - rewrite lookup_insert_eq.
    replace (Z.of_nat (S i)) with (Z.of_nat i + 1) by lia. reflexivity.
  - exists (delete h Q). rewrite Hn, delete_insert_eq.
    split; [reflexivity|]. etransitivity; [apply delete_subseteq | exact HQs].
  - rewrite Hn. reflexivity.
  - exact Hp.
  - rewrite Hl, Hp, repetitionCalls_S, app_assoc. reflexivity.
Qed.

Lemma held_last h p rem i σ :
  held h p rem i σ -> rem <= 0 ->
  exists σ', fireTimer t σ = Some σ' /\ completed i σ'.
Proof.
  intros [Hh Hc (Q & HQ & HQs) Hn Hp Hl] Hpos.
  unfold fireTimer at 1. rewrite Hh. simpl.
  unfold fire. rewrite HQ, lookup_insert_eq. simpl.
  unfold callWrapper. simpl. unfold internalCallback. simpl. rewrite Hc. simpl.
  apply Z.ltb_ge in Hpos. rewrite Hpos. simpl.
  match goal with |- context [kill (Obj ?r) ?s0] =>
    rewrite (kill_Timer r (obj h p) s0)
      by (simpl; first [ destruct done; exact Hh | discriminate ])
  end.
  eexists. split; [reflexivity|].
  split; simpl.
  - apply (fireTimer_idle t (obj h p)).
    + destruct done; exact Hh.
    + destruct done; simpl; rewrite delete_delete_eq; apply lookup_delete_eq.
  - destruct done; simpl; rewrite delete_delete_eq, delete_insert_eq;
      (etransitivity; [apply delete_subseteq | exact HQs]).
  - destruct done; simpl; rewrite Hl, ?Hp, <- ?app_assoc, ?app_nil_r; reflexivity.
Qed.

(** Left to the host, a timer with [rem] repetitions left makes [rem] more
    calls and completes, as long as the counters stay within the integers
    a double holds exactly. *)
Lemma held_run extra p k : forall h rem i σ,
  held h p rem i σ -> rem <= 2 ^ 53 -> Z.to_nat rem = k ->
  Z.of_nat (i + k) <= 2 ^ 53 + 1 ->
  exists σ', fireTimes (S k + extra) t σ = Some σ' /\ completed (i + k) σ'.
Proof.
  induction k as [|k IH]; intros h rem i σ A Hr Hk Hi.
  - destruct (held_last h p rem i σ A) as (σ' & F & Sp); [lia|].
    exists σ'. change (fireTimes (1 + extra) t σ) with (fireTimer t σ ≫= fireTimes extra t).
    rewrite F. simpl.
    rewrite (fireTimes_idle extra t σ' (completed_idle _ _ Sp)), Nat.add_0_r. auto.
  - destruct (held_fire h p rem i σ A) as (σ1 & F & A1); [lia | lia |].
    rewrite roundDouble_exact in A1 by lia.
    destruct (IH (S h) (rem - 1) (S i) σ1 A1) as (σ' & R & Sp); [lia | lia | lia |].
    exists σ'. change (fireTimes (S (S k) + extra) t σ)
      with (fireTimer t σ ≫= fireTimes (S k + extra) t).
    rewrite F. simpl. rewrite Nat.add_succ_r. auto.
Qed.

Lemma held_steps p j : forall h rem i σ,
  held h p rem i σ -> Z.of_nat j <= rem -> rem <= 2 ^ 53 -> Z.of_nat (i + j) <= 2 ^ 53 ->
  exists σ', fireTimes j t σ = Some σ' /\ held (h + j) p (rem - Z.of_nat j) (i + j) σ'.
Proof.
  induction j as [|j IH]; intros h rem i σ A Hle Hr Hi.
  - exists σ. rewrite !Nat.add_0_r. replace (rem - Z.of_nat 0) with rem by lia. auto.
  - destruct (held_fire h p rem i σ A) as (σ1 & F & A1); [lia | lia |].
    rewrite roundDouble_exact in A1 by lia.
    destruct (IH (S h) (rem - 1) (S i) σ1 A1) as (σ' & R & A'); [lia | lia | lia |].
    exists σ'. simpl fireTimes. rewrite F. simpl. rewrite !Nat.add_succ_r.
    replace (rem - Z.of_nat (S j)) with (rem - 1 - Z.of_nat j) by lia. auto.
Qed.

Lemma held_pause_restart h p rem i σ :
  held h p rem i σ ->
  exists σ1 σ2,
    pause (Obj t) σ = Some σ1 /\ fireTimer t σ1 = Some σ1 /\ log σ1 = log σ /\
    restart (Obj t) σ1 = Some σ2 /\ held (S h) (Some true) rem i σ2.
Proof.
  intros [Hh Hc (Q & HQ & HQs) Hn Hp Hl].
  rewrite (pause_Obj _ _ _ Hh).
  eexists. eexists. split; [reflexivity|].
  unfold cancelled, cancelledObj. simpl proto. cbv iota. simpl _timer.
  split.
  { apply (fireTimer_idle t (obj h (Some true))).
    - simpl. apply lookup_insert_eq.
    - simpl. apply lookup_delete_eq. }
  split; [reflexivity|].
  match goal with |- restart (Obj ?r) ?s0 = _ /\ _ =>
    rewrite (restart_Timer r (obj h (Some true)) s0)
      by (simpl; first [apply lookup_insert_eq | right; reflexivity])
  end.
  split; [reflexivity|].
  split; simpl.
  - rewrite insert_insert_eq, lookup_insert_eq, Hn. reflexivity.
  - exact Hc.
  - exists (delete h Q). rewrite Hn, HQ, delete_insert_eq.
    split; [reflexivity|]. etransitivity; [apply delete_subseteq | exact HQs].
  - rewrite Hn. reflexivity.
  - exact Hp.
  - exact Hl.
Qed.

(** *** Any order of firings and restarts *)

Section Schedules.

Variable N : Z.
Hypothesis HN : N <= 2 ^ 53.







End Schedules.

End MultiTimer_run.



(** ** Nothing but a constructor registers a timer *)


Lemma keeps_trans s1 s2 s3 : keeps s1 s2 -> keeps s2 s3 -> keeps s1 s3.
Proof.
  intros (P1 & N1 & D1) (P2 & N2 & D2). repeat split.
  - etransitivity; eassumption.
  - congruence.
  - congruence.
Qed.

Lemma keeps_same s s' :
  timerPool s' = timerPool s -> next_ref s' = next_ref s -> dom (heap s') = dom (heap s) ->
  keeps s s'.
Proof. intros P N D. repeat split; [rewrite P; reflexivity | exact N | exact D]. Qed.

Lemma dom_insert_present (m : gmap nat timerObj) r o o' :
  m !! r = Some o -> dom (<[r := o']> m) = dom m.
Proof.
  intros E. rewrite dom_insert_L.
  apply (elem_of_dom_2 (D := gset nat)) in E.
  apply leibniz_equiv, subseteq_union_1, singleton_subseteq_l, E.
Qed.



Lemma keeps_cancelOwn r o s : heap s !! r = Some o -> keeps s (cancelOwn r o s).
Proof.
  intros E. apply keeps_same; try reflexivity. simpl. eapply dom_insert_present, E.
Qed.

Lemma keeps_hostClear v s : keeps s (hostClear v s).
Proof. destruct v; apply keeps_same; reflexivity. Qed.

Lemma keeps_cancelBase s : keeps s (cancelBase s).
Proof. apply keeps_same; reflexivity. Qed.

Lemma cancel_keeps this s s' : cancel this s = Some s' -> keeps s s'.
Proof.
  destruct this as [|r].
  - rewrite cancel_Base. intros [= <-]. apply keeps_cancelBase.
  - destruct (heap s !! r) as [o|] eqn:E.
    2:{ rewrite (cancel_None _ _ E). discriminate. }
    rewrite (cancel_Obj _ _ _ E). intros [= <-].
    destruct (proto o).
    2,4,5,6: apply (keeps_trans _ _ _ (keeps_hostClear (_timer o) s)), keeps_cancelBase.
    + apply keeps_cancelOwn, E.
    + apply (keeps_trans _ _ _ (keeps_hostClear (_timer o) s)).
      apply keeps_cancelOwn. rewrite heap_hostClear. exact E.
Qed.






(** ** Construction leaves [_running] unset *)

(** Whatever the state, an object built for one of the five concrete classes
    has [isRunning() = false] when its constructor returns: the [restart]
    of these classes arms the host and never writes [_running]. *)
Lemma restart_not_running r o s :
  heap s !! r = Some o -> proto o <> AbstractTimer -> _running o = Some false ->
  _paused o = Some false ->
  exists s', restart (Obj r) s = Some s' /\ isRunning (Obj r) s' = Some (Some false).
Proof.
  intros E Hk Hr Hp. unfold restart, classOf. rewrite E. simpl.
  unfold isRunning, AbstractTimer_isRunning. simpl get.
  destruct (proto o) eqn:P; try contradiction.
  1,3: rewrite (Timer_restart_Obj _ _ _ E); eexists; (split; [reflexivity|]);
       simpl; rewrite lookup_insert_eq; simpl; rewrite Hr; reflexivity.
  - rewrite (IntervalTimer_restart_Obj _ _ _ E P). eexists. split; [reflexivity|].
    simpl. rewrite lookup_insert_eq. reflexivity.
  - unfold OneShotTimer_restart. simpl. rewrite E. simpl. rewrite Hr, Hp. simpl.
    rewrite (Timer_restart_Obj _ _ _ E). eexists. split; [reflexivity|].
    simpl. rewrite lookup_insert_eq. simpl. rewrite Hr. reflexivity.
  - unfold OneShotTimer_restart. simpl. rewrite E. simpl. rewrite Hr, Hp. simpl.
    rewrite (Timer_restart_Obj _ _ _ E). eexists. split; [reflexivity|].
    simpl. rewrite lookup_insert_eq. simpl. rewrite Hr. reflexivity.
Qed.

Lemma construct_not_running k interval callback s :
  k <> AbstractTimer ->
  exists r s', construct k interval callback s = Some (r, s') /\
               isRunning (Obj r) s' = Some (Some false).
Proof.
  intros Hk. unfold construct. simpl.
  match goal with |- context [restart (Obj ?r) ?s0] =>
    destruct (restart_not_running r
                (TimerObj Null interval callback (Some false) (Some false) Null
                          (Some (length (timerPool s ++ [next_ref s]) - 1)%nat) k) s0)
      as (s' & R & I);
      [apply lookup_insert_eq | exact Hk | reflexivity | reflexivity |]
  end.
  rewrite R. simpl. eauto.
Qed.

(** ** Scenarios on the loaded script *)

(** C1: on the loaded script, [t = TimersJS.timer(100, f)] followed by
    [t.kill()] takes [Timer.prototype] (object 0) out of the registry and
    leaves [t] in it; a second [t.kill()] takes another entry out, so the
    count goes from 1 to 0 to -1.  For two repeaters [a] and [b], the second
    [a.kill()] takes [b] out. *)
Theorem kill_removes_another_timer :
  match TimersJS.timer 100 0 loaded with
  | Some (t, s) =>
      match kill (Obj t) s with
      | Some s1 =>
          match kill (Obj t) s1 with
          | Some s2 =>
              t = 5%nat /\
              timerPool s = [0; 1; 2; 3; 4; 5]%nat /\
              timerPool s1 = [1; 2; 3; 4; 5]%nat /\
              timerPool s2 = [2; 3; 4; 5]%nat /\
              poolSize s = 1 /\ poolSize s1 = 0 /\ poolSize s2 = -1
          | None => False
          end
      | None => False
      end
  | None => False
  end /\
  match ('(a, s) ← TimersJS.repeater 100 0 loaded;
         '(b, s') ← TimersJS.repeater 100 1 s;
         s1 ← kill (Obj a) s';
         s2 ← kill (Obj a) s1;
         Some (a, b, s', s1, s2)) with
  | Some (a, b, s', s1, s2) =>
      a = 5%nat /\ b = 6%nat /\
      timerPool s' = [0; 1; 2; 3; 4; 5; 6]%nat /\
      timerPool s1 = [0; 1; 2; 3; 4; 6]%nat /\
      timerPool s2 = [0; 1; 2; 3; 4]%nat
  | None => False
  end.
Proof. vm_compute. repeat split. Qed.

(** C2: on the loaded script, a timer made by any of the five factories
    reports [isRunning() = false] right after construction, although it has
    just been armed on the host (handle 5 is new in the host's table). *)
Theorem isRunning_false_after_construction :
  let fresh (made : option (ref * state)) :=
    match made with
    | Some (t, s) =>
        isRunning (Obj t) s = Some (Some false) /\
        pending loaded !! 5%nat = None /\ is_Some (pending s !! 5%nat)
    | None => False
    end in
  fresh (TimersJS.timer 100 0 loaded) /\
  fresh (TimersJS.repeater 100 0 loaded) /\
  fresh (TimersJS.multi 100 3 0 (Some 1%nat) loaded) /\
  fresh (TimersJS.oneShot 100 0 loaded) /\
  fresh (TimersJS.trigger 1000 0 200 1 loaded).
Proof. vm_compute. repeat split; eexists; reflexivity. Qed.

(** C4: on the loaded script, [t = TimersJS.oneShot(100, f)] followed by
    two calls of [t.restart()] leaves three timeouts armed for [t] (handles
    5, 6 and 7): no call was a no-op.  When the host fires the first two,
    [f] runs twice. *)
Theorem oneShot_restart_rearms :
  match ('(t, s0) ← TimersJS.oneShot 100 0 loaded;
         s1 ← restart (Obj t) s0;
         s2 ← restart (Obj t) s1;
         s3 ← fire 5%nat s2;
         s4 ← fire 6%nat s3;
         Some (t, s0, s1, s2, s3, s4)) with
  | Some (t, s0, s1, s2, s3, s4) =>
      let e := Some (HostEntry (HCall (Defined (Wrapper (Some (FOneShot (Some (FUser 0)))) (Obj t))))
                               (Some 100) false) in
      (pending s0 !! 5%nat = e /\ pending s0 !! 6%nat = None) /\
      (pending s1 !! 5%nat = e /\ pending s1 !! 6%nat = e /\ pending s1 !! 7%nat = None) /\
      (pending s2 !! 5%nat = e /\ pending s2 !! 6%nat = e /\ pending s2 !! 7%nat = e) /\
      map ev_fn (log s2) = [] /\
      map ev_fn (log s3) = [0%nat] /\
      map ev_fn (log s4) = [0%nat; 0%nat]
  | None => False
  end.
Proof. vm_compute. repeat split. Qed.

(** C8: on the loaded script, [t = TimersJS.timer(100, f)] followed by
    [t.callback(g)] arms nothing: the host still holds the one timeout of
    the construction (handle 5), bound to [f], and firing it runs [f], not
    [g]. *)
Theorem callback_set_does_not_rearm :
  match ('(t, s) ← TimersJS.timer 100 0 loaded;
         s1 ← callback_set (FUser 1) (Obj t) s;
         s2 ← fire 5%nat s1;
         Some (t, s, s1, s2)) with
  | Some (t, s, s1, s2) =>
      pending s1 = pending s /\
      pending s1 !! 5%nat =
        Some (HostEntry (HCall (Defined (Wrapper (Some (FUser 0)) (Obj t)))) (Some 100) false) /\
      pending s1 !! 6%nat = None /\
      map ev_fn (log s2) = [0%nat] /\
      pending s2 = pending loaded
  | None => False
  end.
Proof. vm_compute. repeat split. Qed.

(** C9: on the loaded script, after [a = repeater(..)], [b = repeater(..)],
    [a.kill()] and [c = repeater(..)], the two live timers [b] and [c] are
    different objects of the registry with the same [id], 6. *)
Theorem live_ids_collide :
  match ('(a, s1) ← TimersJS.repeater 100 0 loaded;
         '(b, s2) ← TimersJS.repeater 100 1 s1;
         s3 ← kill (Obj a) s2;
         '(c, s4) ← TimersJS.repeater 100 2 s3;
         Some (b, c, s4)) with
  | Some (b, c, s4) =>
      b <> c /\ timerPool s4 = [0; 1; 2; 3; 4; b; c]%nat /\
      timer_id <$> heap s4 !! b = Some (Some 6%nat) /\
      timer_id <$> heap s4 !! c = Some (Some 6%nat)
  | None => False
  end.
Proof. vm_compute. repeat split. discriminate. Qed.



(** ** Instances *)




(** The loaded script with one repeater, before and after [cancel()]. *)
Definition withRepeater : state :=
  default empty (snd <$> TimersJS.repeater 250 0 loaded).

Definition repeaterCancelled : state :=
  default empty (cancel (Obj 5%nat) withRepeater).

Lemma cancel_idempotent_witness :
  cancel (Obj 5%nat) withRepeater = Some repeaterCancelled /\
  cancel (Obj 5%nat) repeaterCancelled = Some repeaterCancelled.
Proof.
  assert (H : cancel (Obj 5%nat) withRepeater = Some repeaterCancelled)
    by (vm_compute; reflexivity).
  split; [exact H|].
  apply (cancel_idempotent (Obj 5%nat) withRepeater repeaterCancelled H).
Defined.

(** * Further properties *)

Lemma restart_Obj r o s :
  heap s !! r = Some o -> restart (Obj r) s = Some (restarted r o s).
Proof.
  intros E. unfold restart, classOf, restarted. rewrite E. simpl.
  destruct (proto o) eqn:P.
  - unfold AbstractTimer_restart. rewrite (cancel_Obj _ _ _ E), P. simpl.
    unfold upd. simpl. rewrite lookup_insert_eq. simpl.
    unfold with_heap. simpl. rewrite insert_insert_eq. reflexivity.
  - apply Timer_restart_Obj, E.
  - apply IntervalTimer_restart_Obj; assumption.
  - apply Timer_restart_Obj, E.
  - unfold OneShotTimer_restart. simpl. rewrite E. simpl.
    destruct (negb (truthy (_paused o)) && truthy (_running o)); [reflexivity|].
    apply Timer_restart_Obj, E.
  - unfold OneShotTimer_restart. simpl. rewrite E. simpl.
    destruct (negb (truthy (_paused o)) && truthy (_running o)); [reflexivity|].
    apply Timer_restart_Obj, E.
Qed.

Lemma timerPool_restarted r o s : timerPool (restarted r o s) = timerPool s.
Proof.
  unfold restarted. destruct (proto o); simpl; rewrite ?timerPool_hostClear; try reflexivity.
  all: destruct (negb (truthy (_paused o)) && truthy (_running o)); reflexivity.
Qed.

(** X1: whatever the class and the state, the constructor registers the new
    object last in [timerPool], gives it as [id] the position it now has
    there, and raises [poolSize] by one. *)
Theorem construct_registers (k : klass) (interval : option Z) (callback : option fn) (s : state) :
  exists s1,
    construct k interval callback s = Some (next_ref s, s1) /\
    timerPool s1 = timerPool s ++ [next_ref s] /\
    timerPool s1 !! length (timerPool s) = Some (next_ref s) /\
    timer_id <$> heap s1 !! next_ref s = Some (Some (length (timerPool s))) /\
    poolSize s1 = poolSize s + 1.
Proof.
  unfold construct. simpl.
  set (o := TimerObj Null interval callback (Some false) (Some false) Null
                     (Some (length (timerPool s ++ [next_ref s]) - 1)%nat) k).
  match goal with |- context [restart _ ?s0] => set (s2 := s0) end.
  assert (E : heap s2 !! next_ref s = Some o) by apply lookup_insert_eq.
  exists (restarted (next_ref s) o s2).
  split; [rewrite (restart_Obj _ _ _ E); reflexivity|].
  assert (Hp : timerPool (restarted (next_ref s) o s2) = timerPool s ++ [next_ref s])
    by apply timerPool_restarted.
  split; [exact Hp|]. split.
  { rewrite Hp. apply list_lookup_middle. reflexivity. }
  split.
  { destruct (restarted_lookup _ _ _ E) as (o' & -> & Hid & _). simpl. rewrite Hid.
    simpl. rewrite length_app. simpl. do 2 f_equal. lia. }
  unfold poolSize. rewrite Hp, length_app. simpl. lia.
Qed.

(** X2: [callback()] memoizes.  The wrapper it returns is the one the
    [_timerFn] slot holds afterwards, and asking again returns that same
    wrapper and changes nothing.  From a [null] slot the wrapper is built,
    dispatching to the object's current [_callback] with the object as
    receiver, and stored in the slot, nothing else changing; from any other
    slot its content is returned and the state is untouched. *)
Theorem callback_memoized (this : target) (s s1 : state) (w : jsval wrapper) :
  AbstractTimer_callback this s = Some (w, s1) ->
  AbstractTimer_callback this s1 = Some (w, s1) /\
  _timerFn <$> get this s1 = Some w /\
  (forall o, get this s = Some o -> _timerFn o = Null ->
             w = Defined (Wrapper (_callback o) this) /\
             upd this (set_timerFn w) s = Some s1) /\
  (forall o, get this s = Some o -> _timerFn o <> Null -> w = _timerFn o /\ s1 = s).
Proof.
  unfold AbstractTimer_callback. destruct this as [|r]; simpl.
  - destruct (_timerFn (base s)) eqn:F; simpl; intros [= <- <-]; simpl;
      rewrite ?F; (split; [reflexivity|]); (split; [reflexivity|]);
      (split; intros o [= <-] F';
       first [congruence | split; first [reflexivity | congruence]]).
  - destruct (heap s !! r) as [o|] eqn:E; simpl; [|discriminate].
    destruct (_timerFn o) eqn:F; simpl; rewrite ?E; simpl; intros [= <- <-]; simpl;
      rewrite ?lookup_insert_eq, ?E; simpl; rewrite ?F;
      (split; [reflexivity|]); (split; [reflexivity|]);
      (split; intros o' [= <-] F';
       first [congruence | split; first [reflexivity | congruence]]).
Qed.

Lemma callback_yields r o f s :
  heap s !! r = Some o -> _callback o = Some f ->
  _timerFn o = Null \/ _timerFn o = Defined (Wrapper (Some f) (Obj r)) ->
  exists s', AbstractTimer_callback (Obj r) s = Some (Defined (Wrapper (Some f) (Obj r)), s').
Proof.
  intros E C [F|F]; unfold AbstractTimer_callback; simpl; rewrite E; simpl; rewrite F; simpl.
  - unfold upd. rewrite ?E. simpl. rewrite C. eauto.
  - eauto.
Qed.

Lemma callback_set_Obj f r o s :
  heap s !! r = Some o ->
  callback_set f (Obj r) s =
    let s0 := with_heap (<[r := set_timerFn Null (set_callback (Some f) o)]> (heap s)) s in
    if truthy (_running o) then restart (Obj r) s0 else Some s0.
Proof.
  intros E. unfold callback_set, upd. rewrite E. simpl.
  unfold isRunning, AbstractTimer_isRunning. simpl. rewrite lookup_insert_eq. reflexivity.
Qed.

(** X3: after [callback(f)], whatever the class, the flags and whether the
    setter restarted the timer, [callback()] yields a wrapper that
    dispatches to [f] with this object as receiver. *)
Theorem callback_set_get (f : fn) (this : target) (s s1 : state) :
  callback_set f this s = Some s1 ->
  exists s2, AbstractTimer_callback this s1 = Some (Defined (Wrapper (Some f) this), s2).
Proof.
  destruct this as [|r].
  - unfold callback_set, isRunning, AbstractTimer_isRunning. simpl.
    destruct (truthy (_running (base s))); intros [= <-];
      unfold AbstractTimer_callback; simpl; eauto.
  - destruct (heap s !! r) as [o|] eqn:E.
    2:{ unfold callback_set, upd. rewrite E. discriminate. }
    rewrite (callback_set_Obj _ _ _ _ E). simpl.
    set (o1 := set_timerFn Null (set_callback (Some f) o)).
    set (s0 := with_heap (<[r := o1]> (heap s)) s).
    assert (E0 : heap s0 !! r = Some o1) by apply lookup_insert_eq.
    destruct (truthy (_running o)).
    + rewrite (restart_Obj _ _ _ E0). intros [= <-].
      unfold restarted. simpl proto.
      destruct (proto o); simpl;
        try (destruct (negb (truthy (_paused o)) && truthy (_running o)); simpl);
        (eapply callback_yields;
         [ first [apply lookup_insert_eq | exact E0] | reflexivity | simpl; auto ]).
    + intros [= <-]. eapply callback_yields; [exact E0 | reflexivity | simpl; auto].
Qed.

(** X4: [cancel()] on any object of the store returns.  On an object of a
    concrete class the host's table of armed timers is then the former one
    without the handle the object held, so that handle can no longer fire;
    on an object that resolves to the base [cancel] the host is not
    touched.  Either way the host has nothing to fire for the handle the
    object holds afterwards, nothing new is armed, no caller's function is
    called, the registry is as it was. *)
Theorem cancel_disarms (r : ref) (o : timerObj) (s : state) :
  heap s !! r = Some o ->
  exists s', cancel (Obj r) s = Some s' /\
             fireTimer r s' = Some s' /\
             pending s' = (if decide (proto o = AbstractTimer) then pending s
                           else pending (hostClear (_timer o) s)) /\
             (forall h, proto o <> AbstractTimer -> _timer o = Defined h ->
                        pending s' !! h = None) /\
             pending s' ⊆ pending s /\ log s' = log s /\ timerPool s' = timerPool s.
Proof.
  intros E. exists (cancelled r o s). split; [apply cancel_cancelled, E|].
  split.
  { apply (fireTimer_idle r (cancelledObj o)).
    + rewrite (heap_cancelled _ _ _ E). apply lookup_insert_eq.
    + unfold cancelledObj, cancelled. destruct (proto o); simpl; try exact I;
        destruct (_timer o); try exact I; simpl; apply lookup_delete_eq. }
  split.
  { unfold cancelled. destruct (proto o); simpl; try reflexivity;
      destruct (_timer o); reflexivity. }
  split.
  { intros h HA Hh. unfold cancelled. destruct (proto o); try contradiction;
      rewrite Hh; simpl; apply lookup_delete_eq. }
  unfold cancelled. destruct (proto o); simpl;
    rewrite ?timerPool_hostClear; repeat split;
    try reflexivity; try apply pending_hostClear_subseteq;
    destruct (_timer o); reflexivity.
Qed.

(** X5: [kill()] on an object of any concrete class returns, and the
    host's table of armed timers is then the former one without the handle
    the object held: that handle can no longer fire, nothing new is armed;
    no caller's function is called, and [callbacksPool] has grown by one
    entry. *)
Theorem kill_disarms (r : ref) (o : timerObj) (s : state) :
  heap s !! r = Some o -> proto o <> AbstractTimer ->
  exists s', kill (Obj r) s = Some s' /\
             fireTimer r s' = Some s' /\
             pending s' = pending (hostClear (_timer o) s) /\
             (forall h, _timer o = Defined h -> pending s' !! h = None) /\
             pending s' ⊆ pending s /\ log s' = log s /\
             length (callbacksPool s') = S (length (callbacksPool s)).
Proof.
  intros E HA. destruct (decide (proto o = IntervalTimer)) as [P|P].
  - exists (killedOwn r o s). split; [apply kill_IntervalTimer_eq; assumption|].
    split.
    { apply (fireTimer_idle r (set_running (Some false) (set_timer Null o)));
        [apply lookup_insert_eq | exact I]. }
    split; [reflexivity|]. split.
    { intros h Hh. simpl. rewrite Hh. simpl. apply lookup_delete_eq. }
    simpl. rewrite length_app. simpl. repeat split;
      [apply pending_hostClear_subseteq | lia].
  - eexists. split; [apply (kill_Timer _ _ _ E HA P)|].
    split.
    { apply (fireTimer_idle r o).
      * simpl. rewrite heap_hostClear. exact E.
      * destruct (_timer o); try exact I. simpl. apply lookup_delete_eq. }
    split; [reflexivity|]. split.
    { intros h Hh. simpl. rewrite Hh. simpl. apply lookup_delete_eq. }
    simpl. rewrite length_app. simpl. repeat split;
      [apply pending_hostClear_subseteq | destruct (_timer o); reflexivity | ].
    destruct (_timer o); simpl; lia.
Qed.

Lemma interval_set_Obj v r o s :
  heap s !! r = Some o ->
  interval_set v (Obj r) s =
    Some (with_heap (<[r := set_interval (Some v) (cancelledObj o)]> (heap (cancelled r o s)))
                    (cancelled r o s)).
Proof.
  intros E. unfold interval_set. rewrite (cancel_cancelled _ _ _ E). simpl.
  unfold upd. rewrite (heap_cancelled _ _ _ E), lookup_insert_eq. reflexivity.
Qed.

(** X6: [pause()] disarms the timeout the object holds, and a following
    [restart()] arms exactly one new timeout, for the object's full
    [_interval] and with its wrapper, which the object then holds; the
    [_paused] flag is still [true] afterwards and the registry unchanged. *)
Theorem pause_restart_rearms (r : ref) (o : timerObj) (s : state) :
  heap s !! r = Some o -> proto o <> AbstractTimer ->
  exists s1 s2 o2,
    pause (Obj r) s = Some s1 /\ restart (Obj r) s1 = Some s2 /\
    pending s1 = pending (hostClear (_timer o) s) /\
    pending s2 = <[next_handle s := armedEntry r o]> (pending s1) /\
    heap s2 !! r = Some o2 /\
    _timer o2 = Defined (next_handle s) /\ _paused o2 = Some true /\
    timerPool s2 = timerPool s.
Proof.
  intros E HA. rewrite (pause_Obj _ _ _ E).
  set (o1 := set_paused (Some true) (cancelledObj o)).
  set (s1 := with_heap _ _).
  assert (E1 : heap s1 !! r = Some o1) by apply lookup_insert_eq.
  exists s1, (restarted r o1 s1). rewrite (restart_Obj _ _ _ E1).
  unfold restarted, s1, o1, cancelled, cancelledObj, armedEntry, wrapperOf.
  destruct (proto o) eqn:P; try contradiction; simpl; rewrite ?P; simpl;
    eexists; (split; [reflexivity|]); (split; [reflexivity|]);
    rewrite ?timerPool_hostClear;
    repeat split; try apply lookup_insert_eq; try reflexivity;
    destruct (_timer o); reflexivity.
Qed.

(** X7: [interval(v)] on a [Timer], [MultiTimer] or [IntervalTimer] object
    disarms the timeout the object holds, and the next [restart()] arms one
    new timeout whose delay is [v]. *)
Theorem interval_set_restart (v : Z) (r : ref) (o : timerObj) (s : state) :
  heap s !! r = Some o ->
  proto o = Timer \/ proto o = MultiTimer \/ proto o = IntervalTimer ->
  exists s1 s2 o2,
    interval_set v (Obj r) s = Some s1 /\ restart (Obj r) s1 = Some s2 /\
    pending s1 = pending (hostClear (_timer o) s) /\
    pending s2 = <[next_handle s := HostEntry (HCall (wrapperOf (Obj r) o)) (Some v)
                                       (bool_decide (proto o = IntervalTimer))]> (pending s1) /\
    heap s2 !! r = Some o2 /\
    _timer o2 = Defined (next_handle s) /\ _interval o2 = Some v.
Proof.
  intros E HP. rewrite (interval_set_Obj _ _ _ _ E).
  set (o1 := set_interval (Some v) (cancelledObj o)).
  set (s1 := with_heap _ _).
  assert (E1 : heap s1 !! r = Some o1) by apply lookup_insert_eq.
  exists s1, (restarted r o1 s1). rewrite (restart_Obj _ _ _ E1).
  unfold restarted, s1, o1, cancelled, cancelledObj, wrapperOf.
  destruct HP as [P | [P | P]]; rewrite P; simpl; rewrite ?P; simpl;
    eexists; (split; [reflexivity|]); (split; [reflexivity|]);
    repeat split; try apply lookup_insert_eq; try reflexivity;
    destruct (_timer o); reflexivity.
Qed.

Lemma construct_eq k interval callback s :
  construct k interval callback s =
    Some (next_ref s, restarted (next_ref s) (newObj k interval callback s)
                                (allocated k interval callback s)).
Proof.
  unfold construct. simpl.
  change (restart (Obj (next_ref s)) _) with
    (restart (Obj (next_ref s)) (allocated k interval callback s)).
  rewrite (restart_Obj _ (newObj k interval callback s)) by apply lookup_insert_eq.
  reflexivity.
Qed.

Lemma fire_timeout h w d s :
  pending s !! h = Some (HostEntry (HCall (Defined w)) d false) ->
  fire h s = callWrapper w (with_pending (delete h (pending s)) s).
Proof. intros E. unfold fire. rewrite E. reflexivity. Qed.

Lemma fire_interval h w d s :
  pending s !! h = Some (HostEntry (HCall (Defined w)) d true) ->
  fire h s = callWrapper w s.
Proof. intros E. unfold fire. rewrite E. reflexivity. Qed.

(** An armed repeater bound to a caller's function: each firing is one call,
    and nothing else changes. *)
Lemma repeater_run cb t h d n : forall s o,
  heap s !! t = Some o -> _timer o = Defined h ->
  pending s !! h = Some (HostEntry (HCall (Defined (Wrapper (Some (FUser cb)) (Obj t)))) d true) ->
  exists s', fireTimes n t s = Some s' /\
             log s' = log s ++ replicate n (Event cb (ThisTimer (Obj t)) [] (timerPool s)) /\
             heap s' = heap s /\ pending s' = pending s /\ timerPool s' = timerPool s /\
             base s' = base s /\ callbacksPool s' = callbacksPool s /\
             next_handle s' = next_handle s.
Proof.
  induction n as [|n IH]; intros s o E T P.
  - exists s. simpl. rewrite app_nil_r. auto 10.
  - simpl. unfold fireTimer. rewrite E. simpl. rewrite T, (fire_interval _ _ _ _ P).
    unfold callWrapper. simpl.
    destruct (IH (callUser cb (ThisTimer (Obj t)) [] s) o E T P)
      as (s' & R & L & H1 & H2 & H3 & H4 & H5 & H6).
    exists s'. split; [exact R|]. rewrite L, H1, H2, H3, H4, H5, H6. simpl.
    rewrite <- app_assoc. auto 10.
Qed.

(** X8: a delay timer made by [TimersJS.timer] in any state: however often
    the host is asked to fire the timeout it holds, the caller's function
    is called once, with the timer as receiver and no argument; the timer
    stays registered and none of its timeouts stays armed. *)
Theorem timer_fires_once (s : state) (interval : Z) (cb : nat) :
  exists s1,
    TimersJS.timer interval cb s = Some (next_ref s, s1) /\
    forall n, exists s2,
      fireTimes (S n) (next_ref s) s1 = Some s2 /\
      log s2 = log s ++ [Event cb (ThisTimer (Obj (next_ref s))) [] (timerPool s ++ [next_ref s])] /\
      timerPool s2 = timerPool s ++ [next_ref s] /\
      pending s2 ⊆ pending s.
Proof.
  unfold TimersJS.timer, new_Timer. rewrite construct_eq.
  eexists. split; [reflexivity|]. intros n.
  unfold restarted. simpl proto. cbv iota.
  set (t := next_ref s).
  set (s1 := arm false t _ _).
  simpl. unfold fireTimer at 1. unfold s1 at 1. simpl heap. rewrite lookup_insert_eq. simpl.
  rewrite (fire_timeout _ (Wrapper (Some (FUser cb)) (Obj t)) (Some interval))
    by (unfold s1; simpl; apply lookup_insert_eq).
  unfold callWrapper. simpl.
  eexists. split.
  { apply fireTimes_idle. eapply fireTimer_idle.
    - simpl. apply lookup_insert_eq.
    - simpl. apply lookup_delete_eq. }
  simpl. repeat split. rewrite delete_insert_eq. apply delete_subseteq.
Qed.

(** X9: a repeater made by [TimersJS.repeater] in any state: [n] firings of
    its interval are [n] calls of the caller's function with the timer as
    receiver, and the interval stays armed throughout. *)
Theorem repeater_fires_each_time (s : state) (interval : Z) (cb : nat) :
  exists s1,
    TimersJS.repeater interval cb s = Some (next_ref s, s1) /\
    forall n, exists s2,
      fireTimes n (next_ref s) s1 = Some s2 /\
      log s2 = log s ++ replicate n (Event cb (ThisTimer (Obj (next_ref s))) []
                                           (timerPool s ++ [next_ref s])) /\
      timerPool s2 = timerPool s ++ [next_ref s] /\
      pending s2 = pending s1 /\
      pending s1 !! next_handle s =
        Some (HostEntry (HCall (Defined (Wrapper (Some (FUser cb)) (Obj (next_ref s)))))
                        (Some interval) true).
Proof.
  unfold TimersJS.repeater, new_IntervalTimer. rewrite construct_eq.
  eexists. split; [reflexivity|]. intros n.
  unfold restarted. simpl proto. cbv iota.
  set (t := next_ref s).
  set (s1 := arm true t _ _).
  assert (P : pending s1 !! next_handle s =
              Some (HostEntry (HCall (Defined (Wrapper (Some (FUser cb)) (Obj t))))
                              (Some interval) true))
    by (unfold s1; simpl; apply lookup_insert_eq).
  destruct (repeater_run cb t (next_handle s) (Some interval) n s1 _
              ltac:(unfold s1; simpl; apply lookup_insert_eq) eq_refl P)
    as (s2 & R & L & _ & HP & HT & _).
  exists s2. split; [exact R|]. rewrite L, HT, HP. auto.
Qed.

(** X10: a one-shot timer made by [TimersJS.oneShot] in any state and left
    alone: however often the host is asked to fire the timeout it holds,
    the caller's function is called once, seeing the timer still
    registered; then [kill()] runs ([Timer]'s, so the registry loses the
    entry at position [Timer.base.id]), both retired functions are queued,
    and nothing of the timer stays armed. *)
Theorem oneShot_fires_once (s : state) (interval : Z) (cb : nat) :
  exists s1,
    TimersJS.oneShot interval cb s = Some (next_ref s, s1) /\
    forall n, exists s2,
      fireTimes (S n) (next_ref s) s1 = Some s2 /\
      log s2 = log s ++ [Event cb (ThisTimer (Obj (next_ref s))) [] (timerPool s ++ [next_ref s])] /\
      timerPool s2 = delete (toInteger (timer_id (base s))) (timerPool s ++ [next_ref s]) /\
      pending s2 ⊆ pending s /\
      callbacksPool s2 = callbacksPool s ++ [RWrapper (_timerFn (base s));
                                             RFn (FOneShot (Some (FUser cb)))].
Proof.
  unfold TimersJS.oneShot, new_OneShotTimer. rewrite construct_eq.
  eexists. split; [reflexivity|]. intros n.
  unfold restarted. simpl proto. cbv iota. simpl negb. cbv iota.
  set (t := next_ref s).
  set (s1 := arm false t _ _).
  simpl. unfold fireTimer at 1. unfold s1 at 1. simpl heap. rewrite lookup_insert_eq. simpl.
  rewrite (fire_timeout _ (Wrapper (Some (FOneShot (Some (FUser cb)))) (Obj t)) (Some interval))
    by (unfold s1; simpl; apply lookup_insert_eq).
  unfold callWrapper. simpl.
  match goal with |- context [kill (Obj t) ?s0] =>
    rewrite (kill_Timer t (set_timer (Defined (next_handle s))
                             (set_timerFn (Defined (Wrapper (Some (FOneShot (Some (FUser cb)))) (Obj t)))
                                (newObj OneShotTimer (Some interval)
                                        (Some (FOneShot (Some (FUser cb)))) s))) s0)
      by (simpl; first [apply lookup_insert_eq | discriminate])
  end.
  simpl. eexists. split.
  { apply fireTimes_idle. eapply fireTimer_idle.
    - simpl. apply lookup_insert_eq.
    - simpl. apply lookup_delete_eq. }
  simpl. repeat split.
  - rewrite delete_delete_eq, delete_insert_eq. apply delete_subseteq.
  - rewrite <- app_assoc. reflexivity.
Qed.

Lemma delete_registered_last (l : list nat) x y :
  delete (length (l ++ [x]) - 1)%nat (l ++ [x; y]) = l ++ [y].
Proof.
  rewrite length_app. simpl.
  replace (length l + 1 - 1)%nat with (length l) by lia.
  apply (delete_middle l [y] x).
Qed.

Lemma pending_after_trigger (P : gmap nat hostEntry) h e1 e2 :
  delete (S h) (delete h (delete (S h) (<[S h := e1]> (<[h := e2]> P)))) ⊆ P.
Proof.
  apply map_subseteq_spec. intros i x.
  rewrite !lookup_delete_Some. intros (H1 & H2 & _ & H).
  rewrite !lookup_insert_ne in H by assumption. exact H.
Qed.

(** X11: a trigger made by [TimersJS.trigger] in any state registers its
    inner repeater and then itself.  While the outer timeout is pending,
    [k] firings of the inner interval are [k] calls of the trigger function.
    When the outer timeout fires, the inner repeater is killed first (it
    leaves the registry), then the caller's function is called once, then
    the outer timer kills itself; afterwards neither handle is armed and
    further firings of either timer do nothing. *)
Theorem trigger_run (s : state) (interval : Z) (cb : nat) (rate : Z) (tcb : nat) :
  let sub := next_ref s in
  let t := S (next_ref s) in
  exists s1,
    TimersJS.trigger interval cb rate tcb s = Some (t, s1) /\
    timerPool s1 = timerPool s ++ [sub; t] /\
    forall k, exists s2 s3,
      fireTimes k sub s1 = Some s2 /\
      fireTimer t s2 = Some s3 /\
      log s3 = log s ++ replicate k (Event tcb (ThisTimer (Obj sub)) [] (timerPool s ++ [sub; t]))
                     ++ [Event cb (ThisTimer (Obj t)) [] (timerPool s ++ [t])] /\
      timerPool s3 = delete (toInteger (timer_id (base s))) (timerPool s ++ [t]) /\
      pending s3 ⊆ pending s /\
      pending s3 !! next_handle s = None /\
      pending s3 !! S (next_handle s) = None /\
      (forall n, fireTimes n sub s3 = Some s3) /\
      (forall n, fireTimes n t s3 = Some s3).
Proof.
  intros sub t.
  unfold TimersJS.trigger, new_OneShotTrigger, new_IntervalTimer.
  rewrite construct_eq. simpl mbind. cbv beta iota.
  rewrite construct_eq.
  set (osub0 := newObj IntervalTimer (Some rate) (Some (FUser tcb)) s).
  set (sa := restarted (next_ref s) osub0 _).
  assert (Hsa : sa = arm true sub (set_running (Some false) (set_timer Null osub0))
                         (cancelOwn sub osub0
                            (allocated IntervalTimer (Some rate) (Some (FUser tcb)) s)))
    by reflexivity.
  assert (Hn : next_ref sa = t) by reflexivity.
  assert (Hpa : timerPool sa = timerPool s ++ [sub]) by reflexivity.
  rewrite Hn.
  set (ot := newObj OneShotTrigger _ _ sa).
  set (s1 := restarted t ot _).
  assert (Hs1 : s1 = arm false t ot
                         (allocated OneShotTrigger (Some interval)
                            (Some (FOneShot (Some (FTrigger sub (Some (FUser cb)))))) sa))
    by reflexivity.
  clearbody s1. subst s1.
  set (s1 := arm false t ot _).
  exists s1. split; [reflexivity|].
  assert (Hp1 : timerPool s1 = timerPool s ++ [sub; t]).
  { change (timerPool s1) with ((timerPool s ++ [sub]) ++ [t]).
    rewrite <- app_assoc. reflexivity. }
  split; [exact Hp1|]. intros k.
  assert (Hne : sub <> t) by (unfold sub, t; lia).
  assert (Hhne : next_handle s <> S (next_handle s)) by lia.
  set (wsub := Wrapper (Some (FUser tcb)) (Obj sub)).
  set (osub := set_timer (Defined (next_handle s))
                 (set_timerFn (Defined wsub)
                    (set_running (Some false)
                       (set_timer Null (newObj IntervalTimer (Some rate) (Some (FUser tcb)) s))))).
  assert (Esub : heap s1 !! sub = Some osub).
  { unfold s1. simpl.
    rewrite !lookup_insert_ne by (unfold sub, t in *; lia).
    apply lookup_insert_eq. }
  assert (Psub : pending s1 !! next_handle s =
                 Some (HostEntry (HCall (Defined wsub)) (Some rate) true)).
  { unfold s1. simpl. rewrite lookup_insert_ne by lia. apply lookup_insert_eq. }
  destruct (repeater_run tcb sub (next_handle s) (Some rate) k s1 osub Esub eq_refl Psub)
    as (s2 & R & L & Hh & Hpd & Htp & Hb & Hcp & Hnh).
  set (wt := Wrapper (Some (FOneShot (Some (FTrigger sub (Some (FUser cb)))))) (Obj t)).
  set (ot1 := set_timer (Defined (S (next_handle s))) (set_timerFn (Defined wt) ot)).
  assert (Et : heap s2 !! t = Some ot1).
  { rewrite Hh. unfold s1. simpl. apply lookup_insert_eq. }
  assert (Pt : pending s2 !! S (next_handle s) =
               Some (HostEntry (HCall (Defined wt)) (Some interval) false)).
  { rewrite Hpd. unfold s1. simpl. apply lookup_insert_eq. }
  assert (Esub2 : heap s2 !! sub = Some osub) by (rewrite Hh; exact Esub).
  eassert (Hf : fireTimer t s2 = Some _).
  { unfold fireTimer. rewrite Et. simpl.
    rewrite (fire_timeout _ wt (Some interval)) by exact Pt.
    unfold callWrapper. simpl.
    rewrite (kill_IntervalTimer_eq sub osub) by (simpl; first [exact Esub2 | reflexivity]).
    simpl.
    match goal with |- context [kill (Obj t) ?s0] =>
      rewrite (kill_Timer t ot1 s0)
        by (simpl; first [ rewrite lookup_insert_ne by (unfold sub, t in *; lia); exact Et
                         | discriminate ])
    end.
    reflexivity. }
  exists s2. eexists. split; [exact R|]. split; [exact Hf|].
  simpl. rewrite L, Htp, Hp1, Hb, Hpd.
  change (log s1) with (log s). change (base s1) with (base s).
  rewrite !delete_registered_last.
  split. { rewrite <- !app_assoc. reflexivity. }
  split. { reflexivity. }
  change (pending s1) with
    (<[S (next_handle s) := HostEntry (HCall (Defined wt)) (Some interval) false]>
       (<[next_handle s := HostEntry (HCall (Defined wsub)) (Some rate) true]> (pending s))).
  split. { apply pending_after_trigger. }
  split. { rewrite lookup_delete_ne by lia. apply lookup_delete_eq. }
  split. { apply lookup_delete_eq. }
  split; intros n; apply fireTimes_idle.
  - eapply fireTimer_idle; [simpl; rewrite lookup_insert_eq; reflexivity | exact I].
  - eapply fireTimer_idle.
    + simpl. rewrite lookup_insert_ne by (intros ?; apply Hne; congruence). exact Et.
    + simpl. apply lookup_delete_eq.
Qed.

(** X12: [kill()] on an [IntervalTimer] whose [id] is still its position in
    the registry removes exactly that entry: the count drops by one, every
    other timer stays registered, and in a registry without duplicates the
    killed timer is gone. *)
Theorem kill_repeater_at_its_position (r : ref) (o : timerObj) (i : nat) (s : state) :
  heap s !! r = Some o -> proto o = IntervalTimer ->
  timer_id o = Some i -> timerPool s !! i = Some r ->
  exists s', kill (Obj r) s = Some s' /\
             timerPool s' = delete i (timerPool s) /\
             poolSize s' = poolSize s - 1 /\
             (NoDup (timerPool s) -> r ∉ timerPool s') /\
             (forall r', r' <> r -> r' ∈ timerPool s -> r' ∈ timerPool s').
Proof.
  intros E P Hi Hpos. exists (killedOwn r o s).
  split; [apply kill_IntervalTimer_eq; assumption|].
  simpl. rewrite Hi. simpl.
  split; [reflexivity|].
  pose proof (lookup_lt_Some _ _ _ Hpos) as Hlt.
  split.
  { unfold poolSize. simpl. rewrite Hi. simpl.
    rewrite length_delete by (exists r; exact Hpos). lia. }
  rewrite delete_take_drop.
  pose proof (take_drop_middle _ _ _ Hpos) as Hmid.
  split.
  - intros ND. rewrite <- Hmid in ND.
    apply NoDup_app in ND as (_ & Hdisj & ND2).
    apply NoDup_cons in ND2 as (Hnin & _).
    intros Hin. apply elem_of_app in Hin as [Hin | Hin].
    + apply (Hdisj _ Hin). left.
    + exact (Hnin Hin).
  - intros r' Hne Hin. rewrite <- Hmid in Hin.
    apply elem_of_app in Hin as [Hin | Hin]; apply elem_of_app; [left; exact Hin|].
    apply elem_of_cons in Hin as [-> | Hin]; [contradiction | right; exact Hin].
Qed.

Lemma pause_spec r o s :
  heap s !! r = Some o ->
  exists s' o', pause (Obj r) s = Some s' /\ heap s' = <[r := o']> (heap s) /\
                _paused o' = Some true /\ timerPool s' = timerPool s.
Proof.
  intros E. rewrite (pause_Obj _ _ _ E). eexists _, _. split; [reflexivity|].
  simpl. rewrite (heap_cancelled _ _ _ E), insert_insert_eq.
  split; [reflexivity|]. split; [reflexivity|].
  apply (cancel_timerPool (Obj r)). apply cancel_cancelled, E.
Qed.

Lemma pauseAll_from pool extra k : forall i s,
  k = (length pool - i)%nat -> (i <= length pool)%nat ->
  timerPool s = pool ->
  (forall r, r ∈ pool -> is_Some (heap s !! r)) ->
  (forall j r, (j < i)%nat -> pool !! j = Some r ->
               exists o, heap s !! r = Some o /\ _paused o = Some true) ->
  exists s', forEachTimer pause (S k + extra) i s = Finished s' /\
             timerPool s' = pool /\
             (forall r, r ∈ pool -> exists o, heap s' !! r = Some o /\ _paused o = Some true).
Proof.
  induction k as [|k IH]; intros i s Hk Hi Hp Hst Hdone.
  - exists s.
    split; [simpl; rewrite Hp, (lookup_ge_None_2 pool i) by lia; reflexivity|].
    split; [exact Hp|].
    intros r Hr. apply list_elem_of_lookup in Hr as [j Hj].
    apply (Hdone j r); [|exact Hj].
    pose proof (lookup_lt_Some _ _ _ Hj). lia.
  - destruct (lookup_lt_is_Some_2 pool i) as [r Hr]; [lia|].
    change (forEachTimer pause (S (S k) + extra) i s)
      with (match timerPool s !! i with
            | None => Finished s
            | Some r => match pause (Obj r) s with
                        | Some s' => forEachTimer pause (S k + extra) (S i) s'
                        | None => Thrown
                        end
            end).
    rewrite Hp, Hr.
    destruct (Hst r) as [o E]; [apply list_elem_of_lookup; eauto|].
    destruct (pause_spec r o s E) as (s' & o' & Pz & Hh & Hpa & Htp).
    rewrite Pz. apply (IH (S i) s'); try lia.
    + rewrite Htp. exact Hp.
    + intros r' Hr'. rewrite Hh. destruct (decide (r = r')) as [->|Hne].
      * rewrite lookup_insert_eq. eauto.
      * rewrite lookup_insert_ne by exact Hne. apply Hst, Hr'.
    + intros j r' Hj Hjr. rewrite Hh. destruct (decide (r = r')) as [->|Hne].
      * rewrite lookup_insert_eq. eauto.
      * rewrite lookup_insert_ne by exact Hne.
        apply (Hdone j r'); [|exact Hjr].
        destruct (decide (j = i)) as [->|]; [congruence | lia].
Qed.

(** X13: on a registry whose entries are objects of the store,
    [pauseAllTimers()] ends after one turn per entry (the bound
    [timerPool.length] read at each turn never moves), leaves the registry
    as it was, and leaves every registered object with [_paused = true]. *)
Theorem pauseAllTimers_pauses_all (s : state) (extra : nat) :
  registryInStore s ->
  exists s', pauseAllTimers (S (length (timerPool s)) + extra) s = Finished s' /\
             timerPool s' = timerPool s /\
             (forall r, r ∈ timerPool s ->
                        exists o, heap s' !! r = Some o /\ _paused o = Some true).
Proof.
  intros Hst. unfold pauseAllTimers.
  apply (pauseAll_from (timerPool s) extra (length (timerPool s)) 0%nat s);
    try reflexivity; try lia; try exact Hst.
Qed.

Lemma restarted_other r o s r' :
  r' <> r -> heap (restarted r o s) !! r' = heap s !! r'.
Proof.
  intros Hne. unfold restarted.
  destruct (proto o); simpl;
    try (destruct (negb (truthy (_paused o)) && truthy (_running o)); simpl);
    rewrite ?heap_hostClear;
    repeat (rewrite lookup_insert_ne by congruence); reflexivity.
Qed.

Lemma restarted_next_handle r o s : (next_handle s <= next_handle (restarted r o s))%nat.
Proof.
  unfold restarted.
  destruct (proto o); simpl;
    try (destruct (negb (truthy (_paused o)) && truthy (_running o)); simpl);
    try lia; destruct (_timer o); simpl; lia.
Qed.

Lemma is_Some_insert_any (m : gmap nat hostEntry) i e h :
  is_Some (m !! h) -> is_Some (<[i := e]> m !! h).
Proof.
  intros H. destruct (decide (i = h)) as [->|Hne].
  - rewrite lookup_insert_eq. eauto.
  - rewrite lookup_insert_ne by exact Hne. exact H.
Qed.

Lemma restarted_pending_kept r o s h :
  is_Some (pending s !! h) -> _timer o <> Defined h ->
  is_Some (pending (restarted r o s) !! h).
Proof.
  intros H Hne. unfold restarted.
  destruct (proto o); simpl;
    try (destruct (negb (truthy (_paused o)) && truthy (_running o)); simpl);
    try exact H; try (apply is_Some_insert_any; exact H).
  all: apply is_Some_insert_any; destruct (_timer o) as [| |h0]; simpl; try exact H.
  all: rewrite lookup_delete_ne by congruence; exact H.
Qed.

Lemma restarted_armed r o s :
  armsAlways (proto o) ->
  exists o', heap (restarted r o s) !! r = Some o' /\ proto o' = proto o /\
             _timer o' = Defined (next_handle s) /\
             is_Some (pending (restarted r o s) !! next_handle s).
Proof.
  intros HA. unfold restarted.
  destruct HA as [P | [P | P]]; rewrite P; simpl;
    (eexists; split; [apply lookup_insert_eq|]); simpl; rewrite ?P;
    (split; [reflexivity|]);
    (split; [destruct (_timer o); reflexivity|]);
    destruct (_timer o); simpl; rewrite lookup_insert_eq; eauto.
Qed.

Lemma restartAll_from s0 pool extra k : forall i s,
  k = (length pool - i)%nat -> (i <= length pool)%nat ->
  NoDup pool ->
  timerPool s = pool ->
  (next_handle s0 <= next_handle s)%nat ->
  (forall j r, (i <= j)%nat -> pool !! j = Some r ->
               exists o, heap s !! r = Some o /\
                         forall h, _timer o = Defined h -> (h < next_handle s0)%nat) ->
  (forall j r, (j < i)%nat -> pool !! j = Some r ->
               exists o, heap s !! r = Some o /\
                 (armsAlways (proto o) ->
                  exists h, _timer o = Defined h /\ is_Some (pending s !! h) /\
                            (next_handle s0 <= h)%nat)) ->
  exists s', forEachTimer restart (S k + extra) i s = Finished s' /\
             timerPool s' = pool /\
             (forall r, r ∈ pool ->
                exists o, heap s' !! r = Some o /\
                  (armsAlways (proto o) ->
                   exists h, _timer o = Defined h /\ is_Some (pending s' !! h))).
Proof.
  induction k as [|k IH]; intros i s Hk Hi ND Hp Hnh Htodo Hdone.
  - exists s.
    split; [simpl; rewrite Hp, (lookup_ge_None_2 pool i) by lia; reflexivity|].
    split; [exact Hp|].
    intros r Hr. apply list_elem_of_lookup in Hr as [j Hj].
    destruct (Hdone j r) as (o & E & A); [|exact Hj|].
    { pose proof (lookup_lt_Some _ _ _ Hj). lia. }
    exists o. split; [exact E|]. intros HA. destruct (A HA) as (h & T & Pn & _). eauto.
  - destruct (lookup_lt_is_Some_2 pool i) as [r Hr]; [lia|].
    change (forEachTimer restart (S (S k) + extra) i s)
      with (match timerPool s !! i with
            | None => Finished s
            | Some r => match restart (Obj r) s with
                        | Some s' => forEachTimer restart (S k + extra) (S i) s'
                        | None => Thrown
                        end
            end).
    rewrite Hp, Hr.
    destruct (Htodo i r (le_n i) Hr) as (o & E & Hold).
    rewrite (restart_Obj _ _ _ E).
    assert (Hdiff : forall j r', j <> i -> pool !! j = Some r' -> r' <> r).
    { intros j r' Hji Hj ->. apply Hji. exact (NoDup_lookup _ _ _ _ ND Hj Hr). }
    apply (IH (S i) (restarted r o s)); try lia; try exact ND.
    + rewrite timerPool_restarted. exact Hp.
    + pose proof (restarted_next_handle r o s). lia.
    + intros j r' Hj Hjr.
      rewrite restarted_other by (apply (Hdiff j); [lia | exact Hjr]).
      apply (Htodo j r'); [lia | exact Hjr].
    + intros j r' Hj Hjr. destruct (decide (j = i)) as [->|Hji].
      * assert (r' = r) as -> by congruence.
        destruct (restarted_lookup r o s E) as (o' & E' & _ & Hproto & _).
        exists o'. split; [exact E'|]. intros HA. rewrite Hproto in HA.
        destruct (restarted_armed r o s HA) as (o'' & E'' & _ & T & Pn).
        rewrite E' in E''. injection E'' as <-.
        exists (next_handle s). auto.
      * rewrite restarted_other by (apply (Hdiff j); [exact Hji | exact Hjr]).
        destruct (Hdone j r') as (o' & E' & A); [lia | exact Hjr |].
        exists o'. split; [exact E'|]. intros HA.
        destruct (A HA) as (h & T & Pn & Hge).
        exists h. split; [exact T|]. split; [|exact Hge].
        apply restarted_pending_kept; [exact Pn|].
        intros Ho. specialize (Hold h Ho). lia.
Qed.

(** X14: on a duplicate-free registry of objects of the store, whose held
    handles were all issued by the host, [restartAllTimers()] ends after
    one turn per entry, leaves the registry as it was, and leaves every
    registered [Timer], [MultiTimer] and [IntervalTimer] object holding a
    handle that is armed. *)
Theorem restartAllTimers_rearms_all (s : state) (extra : nat) :
  registryInStore s -> NoDup (timerPool s) -> handlesIssued s ->
  exists s', restartAllTimers (S (length (timerPool s)) + extra) s = Finished s' /\
             timerPool s' = timerPool s /\
             (forall r, r ∈ timerPool s ->
                exists o, heap s' !! r = Some o /\
                  (armsAlways (proto o) ->
                   exists h, _timer o = Defined h /\ is_Some (pending s' !! h))).
Proof.
  intros Hst ND Hh. unfold restartAllTimers.
  apply (restartAll_from s (timerPool s) extra (length (timerPool s)) 0%nat s);
    try reflexivity; try lia; try exact ND.
  intros j r _ Hj.
  assert (Hin : r ∈ timerPool s) by (apply list_elem_of_lookup; eauto).
  destruct (Hst r Hin) as [o E]. exists o. split; [exact E|].
  intros h T. exact (Hh r o h Hin E T).
Qed.

(** X15: pausing a bounded-repetition timer does not change its count: made
    with [i + j] repetitions ([i + j] at most 2^53), fired [i] times, paused
    (nothing can fire then, nothing is logged), restarted and left to the
    host, it makes exactly [j] more calls, continuing the numbering at [i],
    then the completion call: [i + j] calls in all, with arguments
    0 .. i+j-1. *)
Theorem multi_pause_restart_keeps_count
    (s : state) (interval : Z) (cb : nat) (done : option nat) (i j extra : nat) :
  Z.of_nat (i + j) <= 2 ^ 53 ->
  exists t s1 s2 s3 s4 s5,
    TimersJS.multi interval (Z.of_nat (i + j)) cb done s = Some (t, s1) /\
    fireTimes i t s1 = Some s2 /\
    pause (Obj t) s2 = Some s3 /\
    fireTimer t s3 = Some s3 /\
    log s3 = log s ++ repetitionCalls cb t (timerPool s1) i /\
    restart (Obj t) s3 = Some s4 /\
    fireTimes (S j + extra) t s4 = Some s5 /\
    log s5 = log s ++ repetitionCalls cb t (timerPool s1) (i + j)
                   ++ completionCall done (next_closure s) (timerPool s1).
Proof.
  intros Hij.
  destruct (multi_constructed s interval cb done (Z.of_nat (i + j))) as (s1 & C & A).
  pose proof (held_pool _ _ _ _ _ _ _ _ _ A) as Hp.
  destruct (held_steps s interval cb done (Some false) i _ _ 0%nat s1 A)
    as (s2 & R2 & A2); [lia | lia | simpl; lia |].
  destruct (held_pause_restart s interval cb done _ _ _ _ s2 A2)
    as (s3 & s4 & P3 & I3 & L3 & R4 & A4).
  destruct (held_run s interval cb done extra (Some true) j _ _ _ s4 A4)
    as (s5 & R5 & Cm); [lia | lia | simpl; lia |].
  exists (next_ref s), s1, s2, s3, s4, s5.
  destruct A2 as [_ _ _ _ _ Hl2]. destruct Cm as [_ _ Hl5].
  rewrite Hp. repeat (split; [assumption|]).
  split. { rewrite L3. exact Hl2. }
  repeat (split; [assumption|]).
  exact Hl5.
Qed.

Lemma killAll_delay extra : forall pool s,
  timerPool s = pool ->
  (forall r, r ∈ pool ->
     exists o, heap s !! r = Some o /\ proto o <> AbstractTimer /\ proto o <> IntervalTimer) ->
  timer_id (base s) = None ->
  exists s', killAllTimers (S (length pool) + extra) s = Finished s' /\
             timerPool s' = [] /\ heap s' = heap s /\ pending s' ⊆ pending s /\
             (forall r o h, r ∈ pool -> heap s !! r = Some o -> _timer o = Defined h ->
                            pending s' !! h = None).
Proof.
  induction pool as [|r rest IH]; intros s Hp Hcl Hb.
  - exists s. simpl. rewrite Hp. repeat split; try assumption; try reflexivity.
    intros r o h Hr. inversion Hr.
  - destruct (Hcl r) as (o & E & HA & HI); [left|].
    change (killAllTimers (S (length (r :: rest)) + extra) s)
      with (match timerPool s with
            | [] => Finished s
            | r :: _ => match kill (Obj r) s with
                        | Some s' => killAllTimers (S (length rest) + extra) s'
                        | None => Thrown
                        end
            end).
    rewrite Hp, (kill_Timer _ _ _ E HA HI).
    set (s1 := killBase _).
    assert (Hp1 : timerPool s1 = rest).
    { unfold s1. rewrite timerPool_killBase. simpl. rewrite timerPool_hostClear, Hp.
      replace (timer_id (base (clearTimeout (_timer o) s))) with (timer_id (base s))
        by (destruct (_timer o); reflexivity).
      rewrite Hb. reflexivity. }
    assert (Hh1 : heap s1 = heap s) by (unfold s1; simpl; apply heap_hostClear).
    assert (Hpd1 : pending s1 = pending (hostClear (_timer o) s)) by reflexivity.
    assert (Hb1 : timer_id (base s1) = None).
    { unfold s1. simpl. destruct (_timer o); exact Hb. }
    destruct (IH s1 Hp1) as (s' & R & Ht & Hh & Hsub & Hnone).
    { intros r' Hr'. rewrite Hh1. apply Hcl. right. exact Hr'. }
    { exact Hb1. }
    exists s'. split; [exact R|]. split; [exact Ht|]. split; [congruence|].
    split. { etransitivity; [exact Hsub|]. rewrite Hpd1. apply pending_hostClear_subseteq. }
    intros r' o' h Hr' E' T. apply elem_of_cons in Hr' as [-> | Hr'].
    + assert (o' = o) as -> by congruence.
      apply (lookup_weaken_None (pending s') (pending s1)); [|exact Hsub].
      rewrite Hpd1, T. simpl. apply lookup_delete_eq.
    + apply (Hnone r' o' h Hr'); [rewrite Hh1; exact E' | exact T].
Qed.

(** X17: on a registry holding only objects that inherit
    [Timer.prototype.kill], with [Timer.base.id] undefined as the script
    leaves it, [killAllTimers()] ends after one turn per entry with the
    registry empty; every handle those objects held is disarmed and nothing
    new is armed. *)
Theorem killAllTimers_empties_delay_registry (s : state) (extra : nat) :
  delayClassOnly s -> timer_id (base s) = None ->
  exists s', killAllTimers (S (length (timerPool s)) + extra) s = Finished s' /\
             timerPool s' = [] /\ heap s' = heap s /\ pending s' ⊆ pending s /\
             (forall r o h, r ∈ timerPool s -> heap s !! r = Some o -> _timer o = Defined h ->
                            pending s' !! h = None).
Proof. intros Hcl Hb. apply (killAll_delay extra (timerPool s) s eq_refl Hcl Hb). Qed.

Lemma delete_registered_only (l : list nat) x :
  delete (length (l ++ [x]) - 1)%nat (l ++ [x]) = l.
Proof.
  rewrite length_app. simpl.
  replace (length l + 1 - 1)%nat with (length l) by lia.
  rewrite (delete_middle l [] x). apply app_nil_r.
Qed.

(** X18: a repeater killed right after its construction, in any state: the
    registry is back to what it was before the construction, the timeout
    just armed is disarmed, no caller's function was called, and the
    timer's wrapper is queued in [callbacksPool]. *)
Theorem repeater_kill_roundtrip (s : state) (interval : Z) (cb : nat) :
  exists s1 s2,
    TimersJS.repeater interval cb s = Some (next_ref s, s1) /\
    kill (Obj (next_ref s)) s1 = Some s2 /\
    timerPool s2 = timerPool s /\
    pending s2 = delete (next_handle s) (pending s) /\
    log s2 = log s /\
    callbacksPool s2 =
      callbacksPool s ++ [RWrapper (Defined (Wrapper (Some (FUser cb)) (Obj (next_ref s))))].
Proof.
  unfold TimersJS.repeater, new_IntervalTimer. rewrite construct_eq.
  unfold restarted. simpl proto. cbv iota.
  set (t := next_ref s).
  set (s1 := arm true t _ _).
  eexists s1, _. split; [reflexivity|].
  split.
  { eapply kill_IntervalTimer_eq; [unfold s1; simpl; apply lookup_insert_eq | reflexivity]. }
  simpl. split.
  { apply delete_registered_only. }
  split; [apply delete_insert_eq|]. split; reflexivity.
Qed.

(** X16: the loop of the periodic sweep ends after one turn per entry of
    [callbacksPool] and leaves exactly the state [sweep] describes: the
    queue empty, everything else untouched. *)
Theorem sweepLoop_is_sweep (s : state) (extra : nat) :
  sweepLoop (S (length (callbacksPool s)) + extra) s = Finished (sweep s).
Proof.
  remember (callbacksPool s) as p eqn:Hp. revert s Hp.
  induction p as [|x rest IH]; intros s Hp.
  - simpl. rewrite <- Hp. unfold sweep. rewrite Hp. destruct s; reflexivity.
  - change (sweepLoop (S (length (x :: rest)) + extra) s)
      with (match callbacksPool s with
            | [] => Finished s
            | _ :: rest' => sweepLoop (S (length rest) + extra) (with_callbacksPool rest' s)
            end).
    rewrite <- Hp. rewrite (IH (with_callbacksPool rest s)) by reflexivity.
    reflexivity.
Qed.

(** ** Instances for the further properties *)

(** The loaded script with one delay timer; the same after that timer was
    killed twice, which leaves only objects below [Timer] registered. *)
Definition withTimer : state :=
  default empty (snd <$> TimersJS.timer 100 0 loaded).

Definition afterTwoKills : state :=
  default empty (s1 ← kill (Obj 5%nat) withTimer; kill (Obj 5%nat) s1).

Definition repeaterObj : timerObj :=
  default (undefinedObj IntervalTimer) (heap withRepeater !! 5%nat).

(** Replace the registry of a concrete state by its entries. *)
Ltac expose_registry s H :=
  let p := eval vm_compute in (timerPool s) in change (timerPool s) with p in H.

(** Case analysis on membership in a registry given by its entries. *)
Ltac each_entry H :=
  repeat (apply elem_of_cons in H as [-> | H]);
  [.. | apply elem_of_nil in H; destruct H].

Lemma callback_memoized_witness :
  let w := Defined (Wrapper None (Obj 0%nat)) in
  let s1 := default empty (snd <$> AbstractTimer_callback (Obj 0%nat) loaded) in
  AbstractTimer_callback (Obj 0%nat) loaded = Some (w, s1) /\
  AbstractTimer_callback (Obj 0%nat) s1 = Some (w, s1) /\
  _timerFn <$> get (Obj 0%nat) s1 = Some w /\
  (forall o, get (Obj 0%nat) loaded = Some o -> _timerFn o = Null ->
             w = Defined (Wrapper (_callback o) (Obj 0%nat)) /\
             upd (Obj 0%nat) (set_timerFn w) loaded = Some s1) /\
  (forall o, get (Obj 0%nat) loaded = Some o -> _timerFn o <> Null ->
             w = _timerFn o /\ s1 = loaded).
Proof.
  intros w s1.
  assert (H : AbstractTimer_callback (Obj 0%nat) loaded = Some (w, s1))
    by (vm_compute; reflexivity).
  split; [exact H|]. exact (callback_memoized _ _ _ _ H).
Defined.

Lemma callback_set_get_witness :
  let s1 := default empty (callback_set (FUser 1) (Obj 5%nat) withRepeater) in
  callback_set (FUser 1) (Obj 5%nat) withRepeater = Some s1 /\
  exists s2, AbstractTimer_callback (Obj 5%nat) s1
             = Some (Defined (Wrapper (Some (FUser 1)) (Obj 5%nat)), s2).
Proof.
  intros s1.
  assert (H : callback_set (FUser 1) (Obj 5%nat) withRepeater = Some s1)
    by (vm_compute; reflexivity).
  split; [exact H|]. exact (callback_set_get _ _ _ _ H).
Defined.

Lemma cancel_disarms_witness :
  heap withRepeater !! 5%nat = Some repeaterObj /\
  exists s', cancel (Obj 5%nat) withRepeater = Some s' /\
             fireTimer 5%nat s' = Some s' /\
             pending s' = (if decide (proto repeaterObj = AbstractTimer)
                           then pending withRepeater
                           else pending (hostClear (_timer repeaterObj) withRepeater)) /\
             (forall h, proto repeaterObj <> AbstractTimer -> _timer repeaterObj = Defined h ->
                        pending s' !! h = None) /\
             pending s' ⊆ pending withRepeater /\ log s' = log withRepeater /\
             timerPool s' = timerPool withRepeater.
Proof.
  assert (H : heap withRepeater !! 5%nat = Some repeaterObj) by (vm_compute; reflexivity).
  split; [exact H|]. exact (cancel_disarms _ _ _ H).
Defined.

Lemma kill_disarms_witness :
  heap withRepeater !! 5%nat = Some repeaterObj /\ proto repeaterObj <> AbstractTimer /\
  exists s', kill (Obj 5%nat) withRepeater = Some s' /\
             fireTimer 5%nat s' = Some s' /\
             pending s' = pending (hostClear (_timer repeaterObj) withRepeater) /\
             (forall h, _timer repeaterObj = Defined h -> pending s' !! h = None) /\
             pending s' ⊆ pending withRepeater /\ log s' = log withRepeater /\
             length (callbacksPool s') = S (length (callbacksPool withRepeater)).
Proof.
  assert (H : heap withRepeater !! 5%nat = Some repeaterObj) by (vm_compute; reflexivity).
  assert (P : proto repeaterObj <> AbstractTimer) by (vm_compute; discriminate).
  split; [exact H|]. split; [exact P|]. exact (kill_disarms _ _ _ H P).
Defined.

Lemma pause_restart_rearms_witness :
  heap withRepeater !! 5%nat = Some repeaterObj /\ proto repeaterObj <> AbstractTimer /\
  exists s1 s2 o2,
    pause (Obj 5%nat) withRepeater = Some s1 /\ restart (Obj 5%nat) s1 = Some s2 /\
    pending s1 = pending (hostClear (_timer repeaterObj) withRepeater) /\
    pending s2 = <[next_handle withRepeater := armedEntry 5%nat repeaterObj]> (pending s1) /\
    heap s2 !! 5%nat = Some o2 /\
    _timer o2 = Defined (next_handle withRepeater) /\ _paused o2 = Some true /\
    timerPool s2 = timerPool withRepeater.
Proof.
  assert (H : heap withRepeater !! 5%nat = Some repeaterObj) by (vm_compute; reflexivity).
  assert (P : proto repeaterObj <> AbstractTimer) by (vm_compute; discriminate).
  split; [exact H|]. split; [exact P|]. exact (pause_restart_rearms _ _ _ H P).
Defined.

Lemma interval_set_restart_witness :
  heap withRepeater !! 5%nat = Some repeaterObj /\ proto repeaterObj = IntervalTimer /\
  exists s1 s2 o2,
    interval_set 40 (Obj 5%nat) withRepeater = Some s1 /\ restart (Obj 5%nat) s1 = Some s2 /\
    pending s1 = pending (hostClear (_timer repeaterObj) withRepeater) /\
    pending s2 = <[next_handle withRepeater :=
                     HostEntry (HCall (wrapperOf (Obj 5%nat) repeaterObj)) (Some 40)
                               (bool_decide (proto repeaterObj = IntervalTimer))]> (pending s1) /\
    heap s2 !! 5%nat = Some o2 /\
    _timer o2 = Defined (next_handle withRepeater) /\ _interval o2 = Some 40.
Proof.
  assert (H : heap withRepeater !! 5%nat = Some repeaterObj) by (vm_compute; reflexivity).
  assert (P : proto repeaterObj = IntervalTimer) by (vm_compute; reflexivity).
  split; [exact H|]. split; [exact P|].
  exact (interval_set_restart 40 _ _ _ H (or_intror (or_intror P))).
Defined.

Lemma kill_repeater_at_its_position_witness :
  heap withRepeater !! 5%nat = Some repeaterObj /\ proto repeaterObj = IntervalTimer /\
  timer_id repeaterObj = Some 5%nat /\ timerPool withRepeater !! 5%nat = Some 5%nat /\
  exists s', kill (Obj 5%nat) withRepeater = Some s' /\
             timerPool s' = delete 5%nat (timerPool withRepeater) /\
             poolSize s' = poolSize withRepeater - 1 /\
             (NoDup (timerPool withRepeater) -> 5%nat ∉ timerPool s') /\
             (forall r', r' <> 5%nat -> r' ∈ timerPool withRepeater -> r' ∈ timerPool s').
Proof.
  assert (H : heap withRepeater !! 5%nat = Some repeaterObj) by (vm_compute; reflexivity).
  assert (P : proto repeaterObj = IntervalTimer) by (vm_compute; reflexivity).
  assert (I : timer_id repeaterObj = Some 5%nat) by (vm_compute; reflexivity).
  assert (L : timerPool withRepeater !! 5%nat = Some 5%nat) by (vm_compute; reflexivity).
  repeat (split; [assumption|]).
  exact (kill_repeater_at_its_position _ _ _ _ H P I L).
Defined.

Lemma registryInStore_loaded : registryInStore loaded.
Proof.
  intros r Hr.
  expose_registry loaded Hr.
  each_entry Hr; vm_compute; eauto.
Qed.

Lemma pauseAllTimers_pauses_all_witness :
  registryInStore loaded /\
  exists s', pauseAllTimers (S (length (timerPool loaded)) + 0) loaded = Finished s' /\
             timerPool s' = timerPool loaded /\
             (forall r, r ∈ timerPool loaded ->
                        exists o, heap s' !! r = Some o /\ _paused o = Some true).
Proof.
  split; [exact registryInStore_loaded|].
  exact (pauseAllTimers_pauses_all loaded 0 registryInStore_loaded).
Defined.

Lemma NoDup_loaded : NoDup (timerPool loaded).
Proof.
  let p := eval vm_compute in (timerPool loaded) in change (timerPool loaded) with p.
  apply (bool_decide_unpack _). vm_compute. exact I.
Qed.

Lemma handlesIssued_loaded : handlesIssued loaded.
Proof.
  intros r o h Hr.
  expose_registry loaded Hr.
  each_entry Hr; vm_compute; intros [= <-]; intros [= <-]; lia.
Qed.

Lemma restartAllTimers_rearms_all_witness :
  registryInStore loaded /\ NoDup (timerPool loaded) /\ handlesIssued loaded /\
  exists s', restartAllTimers (S (length (timerPool loaded)) + 0) loaded = Finished s' /\
             timerPool s' = timerPool loaded /\
             (forall r, r ∈ timerPool loaded ->
                exists o, heap s' !! r = Some o /\
                  (armsAlways (proto o) ->
                   exists h, _timer o = Defined h /\ is_Some (pending s' !! h))).
Proof.
  split; [exact registryInStore_loaded|].
  split; [exact NoDup_loaded|].
  split; [exact handlesIssued_loaded|].
  exact (restartAllTimers_rearms_all loaded 0 registryInStore_loaded NoDup_loaded
           handlesIssued_loaded).
Defined.

Lemma delayClassOnly_afterTwoKills : delayClassOnly afterTwoKills.
Proof.
  intros r Hr.
  expose_registry afterTwoKills Hr.
  each_entry Hr; vm_compute; eexists; (split; [reflexivity|]); split; discriminate.
Qed.

Lemma killAllTimers_empties_delay_registry_witness :
  delayClassOnly afterTwoKills /\ timer_id (base afterTwoKills) = None /\
  exists s', killAllTimers (S (length (timerPool afterTwoKills)) + 0) afterTwoKills
             = Finished s' /\
             timerPool s' = [] /\ heap s' = heap afterTwoKills /\
             pending s' ⊆ pending afterTwoKills /\
             (forall r o h, r ∈ timerPool afterTwoKills -> heap afterTwoKills !! r = Some o ->
                            _timer o = Defined h -> pending s' !! h = None).
Proof.
  assert (B : timer_id (base afterTwoKills) = None) by (vm_compute; reflexivity).
  split; [exact delayClassOnly_afterTwoKills|]. split; [exact B|].
  exact (killAllTimers_empties_delay_registry afterTwoKills 0 delayClassOnly_afterTwoKills B).
Defined.

Lemma multi_pause_restart_keeps_count_witness :
  Z.of_nat (1 + 2) <= 2 ^ 53 /\
  exists t s1 s2 s3 s4 s5,
    TimersJS.multi 100 (Z.of_nat (1 + 2)) 0 (Some 1%nat) loaded = Some (t, s1) /\
    fireTimes 1 t s1 = Some s2 /\
    pause (Obj t) s2 = Some s3 /\
    fireTimer t s3 = Some s3 /\
    log s3 = log loaded ++ repetitionCalls 0 t (timerPool s1) 1 /\
    restart (Obj t) s3 = Some s4 /\
    fireTimes (S 2 + 0) t s4 = Some s5 /\
    log s5 = log loaded ++ repetitionCalls 0 t (timerPool s1) (1 + 2)
                   ++ completionCall (Some 1%nat) (next_closure loaded) (timerPool s1).
Proof.
  split; [simpl; lia|].
  apply (multi_pause_restart_keeps_count loaded 100 0 (Some 1%nat) 1 2 0). simpl. lia.
Defined.
